(** * AGH_IS-bcg_project_Animations: the [em::Matrix4] transform utility and
    the [Button] / [DropdownList] widget state.

    The development follows the sources:
    - [include/util/ExtendedMath.h]  (namespace [em], template [Matrix4<T>]),
    - [src/gui/Button.cpp]           (class [Button]),
    - [src/gui/DropdownList.cpp]     (class [DropdownList]).

    [Matrix4<T>] is a class template; its element type is kept as a section
    variable carrying the arithmetic the template body uses.  Arithmetic is
    exact: [T] is a commutative ring, and a field where the code divides; the
    angle of the rotations is settled over the real numbers. *)

From Stdlib Require Import ZArith NArith QArith Qcanon List Bool Lia.
From Stdlib Require Import Ring Field.
From Stdlib Require Reals Lra Machin.
Import ListNotations.

(* ================================================================== *)
(** * namespace em *)
(* ================================================================== *)

Module em.

(** Row and column subscripts of [T m_matrix[4][4]].  The subscripts the
    code uses are the literals 0..3 and loop counters bounded by 4. *)
Inductive index : Type := i0 | i1 | i2 | i3.

Definition indices : list index := [i0; i1; i2; i3].

(** [sf::Vector3<T>]: the three public members. *)
Record Vector3 (T : Type) : Type := mkVector3 { x : T; y : T; z : T }.

(** One row [T[4]] of the array. *)
Record Row (T : Type) : Type := mkRow { c0 : T; c1 : T; c2 : T; c3 : T }.

(** [class Matrix4]: the only data member is [T m_matrix[4][4]]. *)
Record Matrix4 (T : Type) : Type :=
  mkMatrix4 { r0 : Row T; r1 : Row T; r2 : Row T; r3 : Row T }.

Arguments mkVector3 {T}.
Arguments x {T}.
Arguments y {T}.
Arguments z {T}.
Arguments mkRow {T}.
Arguments c0 {T}.
Arguments c1 {T}.
Arguments c2 {T}.
Arguments c3 {T}.
Arguments mkMatrix4 {T}.
Arguments r0 {T}.
Arguments r1 {T}.
Arguments r2 {T}.
Arguments r3 {T}.

Section Subscript.
Context {T : Type}.

Definition row_get (r : Row T) (j : index) : T :=
  match j with i0 => c0 r | i1 => c1 r | i2 => c2 r | i3 => c3 r end.

Definition row_set (r : Row T) (j : index) (v : T) : Row T :=
  match j with
  | i0 => mkRow v (c1 r) (c2 r) (c3 r)
  | i1 => mkRow (c0 r) v (c2 r) (c3 r)
  | i2 => mkRow (c0 r) (c1 r) v (c3 r)
  | i3 => mkRow (c0 r) (c1 r) (c2 r) v
  end.

(** [operator[]]: the row [m_matrix[index]]. *)
Definition subscript (m : Matrix4 T) (i : index) : Row T :=
  match i with i0 => r0 m | i1 => r1 m | i2 => r2 m | i3 => r3 m end.

Definition set_row (m : Matrix4 T) (i : index) (r : Row T) : Matrix4 T :=
  match i with
  | i0 => mkMatrix4 r (r1 m) (r2 m) (r3 m)
  | i1 => mkMatrix4 (r0 m) r (r2 m) (r3 m)
  | i2 => mkMatrix4 (r0 m) (r1 m) r (r3 m)
  | i3 => mkMatrix4 (r0 m) (r1 m) (r2 m) r
  end.

(** Reading [m[i][j]] and the assignment [m[i][j] = v]. *)
Definition get (m : Matrix4 T) (i j : index) : T := row_get (subscript m i) j.

Definition set (m : Matrix4 T) (i j : index) (v : T) : Matrix4 T :=
  set_row m i (row_set (subscript m i) j v).

End Subscript.

(** ** Methods as transformers of the receiver

    A member function runs against its receiver [*this].  It is modelled as
    a function from the receiver before the call to the returned value and
    the receiver after the call.  A member function declared to return
    [Matrix4<T>&] returns [*this]; that reference is the token [This], whose
    referent is the receiver component of the result. *)
Section Method.
Context {T : Type}.

Definition method (A : Type) : Type := Matrix4 T -> A * Matrix4 T.

Inductive reference : Type := This.

Definition ret {A} (a : A) : method A := fun this => (a, this).
Definition bind {A B} (c : method A) (k : A -> method B) : method B :=
  fun this => let (a, this') := c this in k a this'.
(** [*this] read, and the assignment [*this = m]. *)
Definition deref_this : method (Matrix4 T) := fun this => (this, this).
Definition assign_this (m : Matrix4 T) : method unit := fun _ => (tt, m).
(** [m_matrix[i][j]] read and written through [this]. *)
Definition load (i j : index) : method T := fun this => (get this i j, this).
Definition store (i j : index) (v : T) : method unit :=
  fun this => (tt, set this i j v).

(** What the caller sees through a returned [Matrix4<T>&]. *)
Definition referent (res : reference * Matrix4 T) : Matrix4 T := snd res.
(** The value a call returns and the receiver it leaves behind. *)
Definition returned {A} (res : A * Matrix4 T) : A := fst res.
Definition receiver_after {A} (res : A * Matrix4 T) : Matrix4 T := snd res.
End Method.

Arguments method T A : clear implicits.
Arguments reference : clear implicits.

Declare Scope method_scope.
Delimit Scope method_scope with method.
Notation "v <- c ;; k" := (bind c (fun v => k))
  (at level 61, c at next level, right associativity) : method_scope.
Notation "c ;; k" := (bind c (fun _ => k))
  (at level 61, right associativity) : method_scope.

(* ------------------------------------------------------------------ *)
(** ** [template <typename T> class Matrix4] *)
(* ------------------------------------------------------------------ *)

Declare Scope T_scope.
Delimit Scope T_scope with T.
Notation "m '.[' i ',' j ']'" := (get m i j)
  (at level 1, left associativity, format "m .[ i , j ]").

Section Matrix4_T.
Variable T : Type.
Variables (zero one : T) (add mul sub : T -> T -> T) (opp : T -> T).
(** Division, which [operator-] and the rotations perform in [double]. *)
Variable div : T -> T -> T.
(** [==] on [T] (and [!=] as its negation). *)
Variable eqb : T -> T -> bool.
(** [std::cos], [std::sin] and [fmod] of <cmath>. *)
Variables cos sin : T -> T.
Variable fmod : T -> T -> T.

Local Infix "+" := add : T_scope.
Local Infix "*" := mul : T_scope.
Local Infix "-" := sub : T_scope.
Local Infix "/" := div : T_scope.
Local Notation "- a" := (opp a) : T_scope.
Local Open Scope T_scope.
Local Open Scope method_scope.

(** [Matrix4<T>::Matrix4()] *)
Definition Matrix4_default : Matrix4 T :=
  mkMatrix4 (mkRow one zero zero zero)
            (mkRow zero one zero zero)
            (mkRow zero zero one zero)
            (mkRow zero zero zero one).

(** [Matrix4<T>::Matrix4(T a00, ..., T a33)] *)
Definition Matrix4_of (a00 a01 a02 a03 a10 a11 a12 a13
                       a20 a21 a22 a23 a30 a31 a32 a33 : T) : Matrix4 T :=
  mkMatrix4 (mkRow a00 a01 a02 a03)
            (mkRow a10 a11 a12 a13)
            (mkRow a20 a21 a22 a23)
            (mkRow a30 a31 a32 a33).

(** [Matrix4<T> Matrix4<T>::operator*(const Matrix4<T> &right) const] *)
Definition operator_mul (right : Matrix4 T) : method T (Matrix4 T) :=
  this <- deref_this ;;
  let result := Matrix4_default in
  let result := set result i0 i0 (this.[i0,i0]*right.[i0,i0] + this.[i0,i1]*right.[i1,i0] + this.[i0,i2]*right.[i2,i0] + this.[i0,i3]*right.[i3,i0]) in
  let result := set result i0 i1 (this.[i0,i0]*right.[i0,i1] + this.[i0,i1]*right.[i1,i1] + this.[i0,i2]*right.[i2,i1] + this.[i0,i3]*right.[i3,i1]) in
  let result := set result i0 i2 (this.[i0,i0]*right.[i0,i2] + this.[i0,i1]*right.[i1,i2] + this.[i0,i2]*right.[i2,i2] + this.[i0,i3]*right.[i3,i2]) in
  let result := set result i0 i3 (this.[i0,i0]*right.[i0,i3] + this.[i0,i1]*right.[i1,i3] + this.[i0,i2]*right.[i2,i3] + this.[i0,i3]*right.[i3,i3]) in

  let result := set result i1 i0 (this.[i1,i0]*right.[i0,i0] + this.[i1,i1]*right.[i1,i0] + this.[i1,i2]*right.[i2,i0] + this.[i1,i3]*right.[i3,i0]) in
  let result := set result i1 i1 (this.[i1,i0]*right.[i0,i1] + this.[i1,i1]*right.[i1,i1] + this.[i1,i2]*right.[i2,i1] + this.[i1,i3]*right.[i3,i1]) in
  let result := set result i1 i2 (this.[i1,i0]*right.[i0,i2] + this.[i1,i1]*right.[i1,i2] + this.[i1,i2]*right.[i2,i2] + this.[i1,i3]*right.[i3,i2]) in
  let result := set result i1 i3 (this.[i1,i0]*right.[i0,i3] + this.[i1,i1]*right.[i1,i3] + this.[i1,i2]*right.[i2,i3] + this.[i1,i3]*right.[i3,i3]) in

  let result := set result i2 i0 (this.[i2,i0]*right.[i0,i0] + this.[i2,i1]*right.[i1,i0] + this.[i2,i2]*right.[i2,i0] + this.[i2,i3]*right.[i3,i0]) in
  let result := set result i2 i1 (this.[i2,i0]*right.[i0,i1] + this.[i2,i1]*right.[i1,i1] + this.[i2,i2]*right.[i2,i1] + this.[i2,i3]*right.[i3,i1]) in
  let result := set result i2 i2 (this.[i2,i0]*right.[i0,i2] + this.[i2,i1]*right.[i1,i2] + this.[i2,i2]*right.[i2,i2] + this.[i2,i3]*right.[i3,i2]) in
  let result := set result i2 i3 (this.[i2,i0]*right.[i0,i3] + this.[i2,i1]*right.[i1,i3] + this.[i2,i2]*right.[i2,i3] + this.[i2,i3]*right.[i3,i3]) in

  let result := set result i3 i0 (this.[i3,i0]*right.[i0,i0] + this.[i3,i1]*right.[i1,i0] + this.[i3,i2]*right.[i2,i0] + this.[i3,i3]*right.[i3,i0]) in
  let result := set result i3 i1 (this.[i3,i0]*right.[i0,i1] + this.[i3,i1]*right.[i1,i1] + this.[i3,i2]*right.[i2,i1] + this.[i3,i3]*right.[i3,i1]) in
  let result := set result i3 i2 (this.[i3,i0]*right.[i0,i2] + this.[i3,i1]*right.[i1,i2] + this.[i3,i2]*right.[i2,i2] + this.[i3,i3]*right.[i3,i2]) in
  let result := set result i3 i3 (this.[i3,i0]*right.[i0,i3] + this.[i3,i1]*right.[i1,i3] + this.[i3,i2]*right.[i2,i3] + this.[i3,i3]*right.[i3,i3]) in
  ret result.

(** The C++ expression [a * b], a call of [a.operator*(b)]. *)
Definition times (a b : Matrix4 T) : Matrix4 T := returned (operator_mul b a).

(** [Matrix4<T> &Matrix4<T>::operator*=(const Matrix4<T> &right)] *)
Definition operator_mul_assign (right : Matrix4 T) : method T reference :=
  product <- operator_mul right ;;
  assign_this product ;;
  ret This.

(** [const bool Matrix4<T>::operator==(const Matrix4<T> &right) const]:
    the two loops leave with [false] at the first differing entry. *)
Definition operator_eq (right : Matrix4 T) : method T bool :=
  this <- deref_this ;;
  ret (forallb (fun i =>
         forallb (fun j => eqb this.[i,j] right.[i,j]) indices) indices).

(** [Matrix4<T> &Matrix4<T>::translate(const sf::Vector3<T> &translation)] *)
Definition translate (translation : Vector3 T) : method T reference :=
  a <- load i0 i3 ;; store i0 i3 (a + x translation) ;;
  b <- load i1 i3 ;; store i1 i3 (b + y translation) ;;
  c <- load i2 i3 ;; store i2 i3 (c + z translation) ;;
  ret This.

(** [Matrix4<T> &Matrix4<T>::scale(const sf::Vector3<T> &scale)] *)
Definition scale (scale : Vector3 T) : method T reference :=
  operator_mul_assign
    (Matrix4_of (x scale) zero zero zero
                zero (y scale) zero zero
                zero zero (z scale) zero
                zero zero zero one) ;;
  ret This.

(** [Matrix4<T> &Matrix4<T>::mirror(const bool xAxis, const bool yAxis, const bool zAxis)] *)
Definition mirror (xAxis yAxis zAxis : bool) : method T reference :=
  let mirrorMatrix := Matrix4_default in
  let mirrorMatrix := if xAxis then set mirrorMatrix i0 i0 (- one) else mirrorMatrix in
  let mirrorMatrix := if yAxis then set mirrorMatrix i1 i1 (- one) else mirrorMatrix in
  let mirrorMatrix := if zAxis then set mirrorMatrix i2 i2 (- one) else mirrorMatrix in
  operator_mul_assign mirrorMatrix ;;
  ret This.

(** [Matrix4<T> Matrix4<T>::operator-() const] *)
Definition operator_neg : method T (Matrix4 T) :=
  m <- deref_this ;;
  let result := Matrix4_default in
  let result := set result i0 i0
        (m.[i1,i1] * m.[i2,i2] * m.[i3,i3] - m.[i1,i1] * m.[i2,i3] * m.[i3,i2]
         - m.[i2,i1] * m.[i1,i2] * m.[i3,i3] + m.[i2,i1] * m.[i1,i3] * m.[i3,i2]
         + m.[i3,i1] * m.[i1,i2] * m.[i2,i3] - m.[i3,i1] * m.[i1,i3] * m.[i2,i2]) in
  let result := set result i1 i0
        (- m.[i1,i0] * m.[i2,i2] * m.[i3,i3] + m.[i1,i0] * m.[i2,i3] * m.[i3,i2]
         + m.[i2,i0] * m.[i1,i2] * m.[i3,i3] - m.[i2,i0] * m.[i1,i3] * m.[i3,i2]
         - m.[i3,i0] * m.[i1,i2] * m.[i2,i3] + m.[i3,i0] * m.[i1,i3] * m.[i2,i2]) in
  let result := set result i2 i0
        (m.[i1,i0] * m.[i2,i1] * m.[i3,i3] - m.[i1,i0] * m.[i2,i3] * m.[i3,i1]
         - m.[i2,i0] * m.[i1,i1] * m.[i3,i3] + m.[i2,i0] * m.[i1,i3] * m.[i3,i1]
         + m.[i3,i0] * m.[i1,i1] * m.[i2,i3] - m.[i3,i0] * m.[i1,i3] * m.[i2,i1]) in
  let result := set result i3 i0
        (- m.[i1,i0] * m.[i2,i1] * m.[i3,i2] + m.[i1,i0] * m.[i2,i2] * m.[i3,i1]
         + m.[i2,i0] * m.[i1,i1] * m.[i3,i2] - m.[i2,i0] * m.[i1,i2] * m.[i3,i1]
         - m.[i3,i0] * m.[i1,i1] * m.[i2,i2] + m.[i3,i0] * m.[i1,i2] * m.[i2,i1]) in
  let result := set result i0 i1
        (- m.[i0,i1] * m.[i2,i2] * m.[i3,i3] + m.[i0,i1] * m.[i2,i3] * m.[i3,i2]
         + m.[i2,i1] * m.[i0,i2] * m.[i3,i3] - m.[i2,i1] * m.[i0,i3] * m.[i3,i2]
         - m.[i3,i1] * m.[i0,i2] * m.[i2,i3] + m.[i3,i1] * m.[i0,i3] * m.[i2,i2]) in
  let result := set result i1 i1
        (m.[i0,i0] * m.[i2,i2] * m.[i3,i3] - m.[i0,i0] * m.[i2,i3] * m.[i3,i2]
         - m.[i2,i0] * m.[i0,i2] * m.[i3,i3] + m.[i2,i0] * m.[i0,i3] * m.[i3,i2]
         + m.[i3,i0] * m.[i0,i2] * m.[i2,i3] - m.[i3,i0] * m.[i0,i3] * m.[i2,i2]) in
  let result := set result i2 i1
        (- m.[i0,i0] * m.[i2,i1] * m.[i3,i3] + m.[i0,i0] * m.[i2,i3] * m.[i3,i1]
         + m.[i2,i0] * m.[i0,i1] * m.[i3,i3] - m.[i2,i0] * m.[i0,i3] * m.[i3,i1]
         - m.[i3,i0] * m.[i0,i1] * m.[i2,i3] + m.[i3,i0] * m.[i0,i3] * m.[i2,i1]) in
  let result := set result i3 i1
        (m.[i0,i0] * m.[i2,i1] * m.[i3,i2] - m.[i0,i0] * m.[i2,i2] * m.[i3,i1]
         - m.[i2,i0] * m.[i0,i1] * m.[i3,i2] + m.[i2,i0] * m.[i0,i2] * m.[i3,i1]
         + m.[i3,i0] * m.[i0,i1] * m.[i2,i2] - m.[i3,i0] * m.[i0,i2] * m.[i2,i1]) in
  let result := set result i0 i2
        (m.[i0,i1] * m.[i1,i2] * m.[i3,i3] - m.[i0,i1] * m.[i1,i3] * m.[i3,i2]
         - m.[i1,i1] * m.[i0,i2] * m.[i3,i3] + m.[i1,i1] * m.[i0,i3] * m.[i3,i2]
         + m.[i3,i1] * m.[i0,i2] * m.[i1,i3] - m.[i3,i1] * m.[i0,i3] * m.[i1,i2]) in
  let result := set result i1 i2
        (- m.[i0,i0] * m.[i1,i2] * m.[i3,i3] + m.[i0,i0] * m.[i1,i3] * m.[i3,i2]
         + m.[i1,i0] * m.[i0,i2] * m.[i3,i3] - m.[i1,i0] * m.[i0,i3] * m.[i3,i2]
         - m.[i3,i0] * m.[i0,i2] * m.[i1,i3] + m.[i3,i0] * m.[i0,i3] * m.[i1,i2]) in
  let result := set result i2 i2
        (m.[i0,i0] * m.[i1,i1] * m.[i3,i3] - m.[i0,i0] * m.[i1,i3] * m.[i3,i1]
         - m.[i1,i0] * m.[i0,i1] * m.[i3,i3] + m.[i1,i0] * m.[i0,i3] * m.[i3,i1]
         + m.[i3,i0] * m.[i0,i1] * m.[i1,i3] - m.[i3,i0] * m.[i0,i3] * m.[i1,i1]) in
  let result := set result i3 i2
        (- m.[i0,i0] * m.[i1,i1] * m.[i3,i2] + m.[i0,i0] * m.[i1,i2] * m.[i3,i1]
         + m.[i1,i0] * m.[i0,i1] * m.[i3,i2] - m.[i1,i0] * m.[i0,i2] * m.[i3,i1]
         - m.[i3,i0] * m.[i0,i1] * m.[i1,i2] + m.[i3,i0] * m.[i0,i2] * m.[i1,i1]) in
  let result := set result i0 i3
        (- m.[i0,i1] * m.[i1,i2] * m.[i2,i3] + m.[i0,i1] * m.[i1,i3] * m.[i2,i2]
         + m.[i1,i1] * m.[i0,i2] * m.[i2,i3] - m.[i1,i1] * m.[i0,i3] * m.[i2,i2]
         - m.[i2,i1] * m.[i0,i2] * m.[i1,i3] + m.[i2,i1] * m.[i0,i3] * m.[i1,i2]) in
  let result := set result i1 i3
        (m.[i0,i0] * m.[i1,i2] * m.[i2,i3] - m.[i0,i0] * m.[i1,i3] * m.[i2,i2]
         - m.[i1,i0] * m.[i0,i2] * m.[i2,i3] + m.[i1,i0] * m.[i0,i3] * m.[i2,i2]
         + m.[i2,i0] * m.[i0,i2] * m.[i1,i3] - m.[i2,i0] * m.[i0,i3] * m.[i1,i2]) in
  let result := set result i2 i3
        (- m.[i0,i0] * m.[i1,i1] * m.[i2,i3] + m.[i0,i0] * m.[i1,i3] * m.[i2,i1]
         + m.[i1,i0] * m.[i0,i1] * m.[i2,i3] - m.[i1,i0] * m.[i0,i3] * m.[i2,i1]
         - m.[i2,i0] * m.[i0,i1] * m.[i1,i3] + m.[i2,i0] * m.[i0,i3] * m.[i1,i1]) in
  let result := set result i3 i3
        (m.[i0,i0] * m.[i1,i1] * m.[i2,i2] - m.[i0,i0] * m.[i1,i2] * m.[i2,i1]
         - m.[i1,i0] * m.[i0,i1] * m.[i2,i2] + m.[i1,i0] * m.[i0,i2] * m.[i2,i1]
         + m.[i2,i0] * m.[i0,i1] * m.[i1,i2] - m.[i2,i0] * m.[i0,i2] * m.[i1,i1]) in
  let det := m.[i0,i0] * result.[i0,i0] + m.[i0,i1] * result.[i1,i0]
             + m.[i0,i2] * result.[i2,i0] + m.[i0,i3] * result.[i3,i0] in
  if eqb det zero then
    ret Matrix4_default
  else
    let det := one / det in
    let result :=
      fold_left (fun result i =>
        fold_left (fun result j => set result i j (result.[i,j] * det))
                  indices result)
        indices result in
    ret result.

(** The C++ expression [-m], a call of [m.operator-()]. *)
Definition neg (m : Matrix4 T) : Matrix4 T := returned (operator_neg m).

(** A decimal literal of the source as an element of [T]. *)
Fixpoint literal (p : positive) : T :=
  match p with
  | xH => one
  | xO q => (one + one) * literal q
  | xI q => one + (one + one) * literal q
  end.

(** [double emPI = 3.141592654;] *)
Definition emPI : T := literal 3141592654 / literal 1000000000.

(** [T rad = fmod(angle * emPI / 180.0, 2.0 * emPI);] *)
Definition radians (angle : T) : T :=
  fmod (angle * emPI / literal 180) (literal 2 * emPI).

(** [Matrix4<T> &Matrix4<T>::rotateX(const float &angle)] *)
Definition rotateX (angle : T) : method T reference :=
  let rad := radians angle in
  let cos_x := cos rad in
  let sin_x := sin rad in
  operator_mul_assign
    (Matrix4_of one zero zero zero
                zero cos_x (- sin_x) zero
                zero sin_x cos_x zero
                zero zero zero one) ;;
  ret This.

(** [Matrix4<T> &Matrix4<T>::rotateY(const float &angle)] *)
Definition rotateY (angle : T) : method T reference :=
  let rad := radians angle in
  let cos_y := cos rad in
  let sin_y := sin rad in
  operator_mul_assign
    (Matrix4_of cos_y zero sin_y zero
                zero one zero zero
                (- sin_y) zero cos_y zero
                zero zero zero one) ;;
  ret This.

(** [Matrix4<T> &Matrix4<T>::rotateZ(const float &angle)] *)
Definition rotateZ (angle : T) : method T reference :=
  let rad := radians angle in
  let cos_z := cos rad in
  let sin_z := sin rad in
  operator_mul_assign
    (Matrix4_of cos_z (- sin_z) zero zero
                sin_z cos_z zero zero
                zero zero one zero
                zero zero zero one) ;;
  ret This.

(** [const sf::Vector3<T> Matrix4<T>::toPosition() const] *)
Definition toPosition : method T (Vector3 T) :=
  this <- deref_this ;;
  ret (mkVector3 this.[i0,i3] this.[i1,i3] this.[i2,i3]).

(** [Matrix4<T> Matrix4<T>::operator+(const Matrix4<T> &right) const] *)
Definition operator_add (right : Matrix4 T) : method T (Matrix4 T) :=
  this <- deref_this ;;
  let result := Matrix4_default in
  let result :=
    fold_left (fun result i =>
      fold_left (fun result j => set result i j (this.[i,j] + right.[i,j]))
                indices result)
      indices result in
  ret result.

(** [Matrix4<T> Matrix4<T>::operator-(const Matrix4<T> &right) const] *)
Definition operator_sub (right : Matrix4 T) : method T (Matrix4 T) :=
  this <- deref_this ;;
  let result := Matrix4_default in
  let result :=
    fold_left (fun result i =>
      fold_left (fun result j => set result i j (this.[i,j] - right.[i,j]))
                indices result)
      indices result in
  ret result.

(** The C++ expressions [a + b] and [a - b]. *)
Definition plus (a b : Matrix4 T) : Matrix4 T := returned (operator_add b a).
Definition minus (a b : Matrix4 T) : Matrix4 T := returned (operator_sub b a).

(** [Matrix4<T> &Matrix4<T>::operator+=(const Matrix4<T> &right)] *)
Definition operator_add_assign (right : Matrix4 T) : method T reference :=
  sum <- operator_add right ;;
  assign_this sum ;;
  ret This.

(** [Matrix4<T> &Matrix4<T>::operator-=(const Matrix4<T> &right)] *)
Definition operator_sub_assign (right : Matrix4 T) : method T reference :=
  difference <- operator_sub right ;;
  assign_this difference ;;
  ret This.

(** [const bool Matrix4<T>::operator!=(const Matrix4<T> &right) const]:
    the two loops leave with [true] at the first differing entry. *)
Definition operator_ne (right : Matrix4 T) : method T bool :=
  this <- deref_this ;;
  ret (existsb (fun i =>
         existsb (fun j => negb (eqb this.[i,j] right.[i,j])) indices)
         indices).

(** [sf::Vector3<T> Matrix4<T>::operator*(const sf::Vector3<T> &right) const]:
    [arr] and [res] are the two local arrays [T[4]]. *)
Definition operator_mul_vector (right : Vector3 T) : method T (Vector3 T) :=
  this <- deref_this ;;
  let arr := mkRow (x right) (y right) (z right) one in
  let res := mkRow zero zero zero zero in
  let res :=
    fold_left (fun res i =>
      fold_left (fun res j =>
                   row_set res i (row_get res i + this.[i,j] * row_get arr j))
                indices res)
      indices res in
  ret (mkVector3 (row_get res i0) (row_get res i1) (row_get res i2)).

(** The C++ expression [m * v] for a vector [v]. *)
Definition times_vector (m : Matrix4 T) (v : Vector3 T) : Vector3 T :=
  returned (operator_mul_vector v m).

(** *** The standard notions the code is compared with *)

(** The matrix with given entries. *)
Definition tabulate (f : index -> index -> T) : Matrix4 T :=
  mkMatrix4 (mkRow (f i0 i0) (f i0 i1) (f i0 i2) (f i0 i3))
            (mkRow (f i1 i0) (f i1 i1) (f i1 i2) (f i1 i3))
            (mkRow (f i2 i0) (f i2 i1) (f i2 i2) (f i2 i3))
            (mkRow (f i3 i0) (f i3 i1) (f i3 i2) (f i3 i3)).

(** Sum of [f k] over the four subscripts k = 0..3. *)
Definition sigma (f : index -> T) : T :=
  fold_right (fun k acc => f k + acc) zero indices.

Definition index_eqb (i j : index) : bool :=
  match i, j with
  | i0, i0 | i1, i1 | i2, i2 | i3, i3 => true
  | _, _ => false
  end.

(** The textbook product: entry (i,j) is the sum over k of a[i][k]*b[k][j]. *)
Definition product (a b : Matrix4 T) : Matrix4 T :=
  tabulate (fun i j => sigma (fun k => a.[i,k] * b.[k,j])).

(** The identity matrix: Kronecker delta. *)
Definition identity : Matrix4 T :=
  tabulate (fun i j => if index_eqb i j then one else zero).

(** diag(d0, d1, d2, d3). *)
Definition diagonal (d : index -> T) : Matrix4 T :=
  tabulate (fun i j => if index_eqb i j then d i else zero).

(** The diagonal of signs that mirrors the flagged axes. *)
Definition mirror_diagonal (xAxis yAxis zAxis : bool) (i : index) : T :=
  match i with
  | i0 => if xAxis then - one else one
  | i1 => if yAxis then - one else one
  | i2 => if zAxis then - one else one
  | i3 => one
  end.

(** The diagonal diag(s.x, s.y, s.z, 1) of a scaling. *)
Definition scale_diagonal (s : Vector3 T) (i : index) : T :=
  match i with i0 => x s | i1 => y s | i2 => z s | i3 => one end.

(** The entries [translate] writes: rows 0..2 of the last column. *)
Definition translated (i j : index) : bool :=
  index_eqb j i3 && negb (index_eqb i i3).

(** The standard rotations about the coordinate axes, from the cosine [c]
    and the sine [s] of the angle. *)
Definition rotation_x (c s : T) : Matrix4 T :=
  tabulate (fun i j =>
    match i, j with
    | i0, i0 => one
    | i1, i1 => c | i1, i2 => - s
    | i2, i1 => s | i2, i2 => c
    | i3, i3 => one
    | _, _ => zero
    end).

Definition rotation_y (c s : T) : Matrix4 T :=
  tabulate (fun i j =>
    match i, j with
    | i0, i0 => c | i0, i2 => s
    | i1, i1 => one
    | i2, i0 => - s | i2, i2 => c
    | i3, i3 => one
    | _, _ => zero
    end).

Definition rotation_z (c s : T) : Matrix4 T :=
  tabulate (fun i j =>
    match i, j with
    | i0, i0 => c | i0, i1 => - s
    | i1, i0 => s | i1, i1 => c
    | i2, i2 => one
    | i3, i3 => one
    | _, _ => zero
    end).

(** Cofactor expansion.  [others i] lists the three subscripts left when
    [i] is struck out; a minor is the 3x3 determinant of what remains of
    the matrix once a row and a column are struck out. *)
Definition others (i : index) : index * index * index :=
  match i with
  | i0 => (i1, i2, i3)
  | i1 => (i0, i2, i3)
  | i2 => (i0, i1, i3)
  | i3 => (i0, i1, i2)
  end.

Definition det3 (e : index -> index -> T)
    (rows cols : index * index * index) : T :=
  let '(ra, rb, rc) := rows in
  let '(ca, cb, cc) := cols in
  e ra ca * (e rb cb * e rc cc - e rb cc * e rc cb)
  - e ra cb * (e rb ca * e rc cc - e rb cc * e rc ca)
  + e ra cc * (e rb ca * e rc cb - e rb cb * e rc ca).

Definition minor (m : Matrix4 T) (i j : index) : T :=
  det3 (get m) (others i) (others j).

Definition odd_index (i : index) : bool :=
  match i with i1 | i3 => true | i0 | i2 => false end.

Definition cofactor (m : Matrix4 T) (i j : index) : T :=
  if xorb (odd_index i) (odd_index j) then - minor m i j else minor m i j.

(** The determinant, expanded along the first row. *)
Definition determinant (m : Matrix4 T) : T :=
  sigma (fun j => m.[i0,j] * cofactor m i0 j).

(** The inverse by cofactor expansion: the transposed matrix of cofactors
    over the determinant. *)
Definition cofactor_inverse (m : Matrix4 T) : Matrix4 T :=
  tabulate (fun i j => cofactor m j i / determinant m).

(** Sum of two [sf::Vector3<T>], component by component. *)
Definition vadd (u v : Vector3 T) : Vector3 T :=
  mkVector3 (x u + x v) (y u + y v) (z u + z v).

(** A matrix whose last row is (0, 0, 0, 1): an affine transform of
    space. *)
Definition affine (m : Matrix4 T) : Prop :=
  m.[i3,i0] = zero /\ m.[i3,i1] = zero /\ m.[i3,i2] = zero /\ m.[i3,i3] = one.

(** The matrix of the translation by [t]: the identity with [t] in its
    last column. *)
Definition translation_matrix (t : Vector3 T) : Matrix4 T :=
  tabulate (fun i j =>
    match i, j with
    | i0, i3 => x t
    | i1, i3 => y t
    | i2, i3 => z t
    | _, _ => if index_eqb i j then one else zero
    end).

Definition vopp (v : Vector3 T) : Vector3 T :=
  mkVector3 (- x v) (- y v) (- z v).

(** Component by component product of two scale vectors. *)
Definition vmul (u v : Vector3 T) : Vector3 T :=
  mkVector3 (x u * x v) (y u * y v) (z u * z v).

(** The reciprocal scale factors. *)
Definition vinv (v : Vector3 T) : Vector3 T :=
  mkVector3 (one / x v) (one / y v) (one / z v).

(** The scale vector with -1 on the flagged axes and 1 on the others. *)
Definition mirror_vector (xAxis yAxis zAxis : bool) : Vector3 T :=
  mkVector3 (if xAxis then - one else one)
            (if yAxis then - one else one)
            (if zAxis then - one else one).

(** *** Assumptions on [T]: exact arithmetic *)

Hypothesis Tring : ring_theory zero one add mul sub opp (@eq T).
Hypothesis eqb_eq : forall a b : T, eqb a b = true <-> a = b.

Add Ring T_is_ring : Tring.

Lemma get_tabulate f i j : (tabulate f).[i,j] = f i j.
Proof. destruct i, j; reflexivity. Qed.

(** *** Subscripts *)

Lemma get_set_same (m : Matrix4 T) i j v : get (set m i j v) i j = v.
Proof. destruct i, j; reflexivity. Qed.

Lemma get_set_other (m : Matrix4 T) i j i' j' v :
  (i, j) <> (i', j') -> get (set m i j v) i' j' = get m i' j'.
Proof. destruct i, j, i', j'; intros H; try reflexivity; now elim H. Qed.

Lemma matrix_ext (a b : Matrix4 T) :
  (forall i j, get a i j = get b i j) -> a = b.
Proof.
  intros H.
  destruct a as [[] [] [] []], b as [[] [] [] []].
  pose proof (H i0 i0); pose proof (H i0 i1); pose proof (H i0 i2); pose proof (H i0 i3).
  pose proof (H i1 i0); pose proof (H i1 i1); pose proof (H i1 i2); pose proof (H i1 i3).
  pose proof (H i2 i0); pose proof (H i2 i1); pose proof (H i2 i2); pose proof (H i2 i3).
  pose proof (H i3 i0); pose proof (H i3 i1); pose proof (H i3 i2); pose proof (H i3 i3).
  cbn in *. congruence.
Qed.
(** *** Proof support: entries are compared one by one, each by [ring]. *)

Ltac explode m := destruct m as [[? ? ? ?] [? ? ? ?] [? ? ? ?] [? ? ? ?]].

Ltac entrywise :=
  cbv;
  repeat match goal with
         | |- (_, _) = (_, _) => f_equal
         | |- mkMatrix4 _ _ _ _ = mkMatrix4 _ _ _ _ => f_equal
         | |- mkRow _ _ _ _ = mkRow _ _ _ _ => f_equal
         | |- mkVector3 _ _ _ = mkVector3 _ _ _ => f_equal
         end;
  try reflexivity; try ring.

Lemma operator_mul_receiver right this :
  receiver_after (operator_mul right this) = this.
Proof. reflexivity. Qed.

Lemma times_product a b : times a b = product a b.
Proof. explode a; explode b; unfold times; entrywise. Qed.

Lemma Matrix4_default_identity : Matrix4_default = identity.
Proof. reflexivity. Qed.

Lemma product_identity_l m : product identity m = m.
Proof. explode m; entrywise. Qed.

Lemma product_identity_r m : product m identity = m.
Proof. explode m; entrywise. Qed.

Lemma product_assoc a b c : product (product a b) c = product a (product b c).
Proof. explode a; explode b; explode c; entrywise. Qed.

Lemma operator_mul_assign_product right this :
  operator_mul_assign right this = (This, product this right).
Proof.
  rewrite <- times_product. reflexivity.
Qed.

Lemma forallb_indices (p : index -> bool) :
  forallb p indices = true <-> forall i, p i = true.
Proof.
  unfold indices; cbn. rewrite !andb_true_iff. split.
  - intros (? & ? & ? & ? & _) []; assumption.
  - intros H. repeat split; apply H.
Qed.

Lemma operator_eq_true right this :
  returned (operator_eq right this) = true <-> this = right.
Proof.
  cbv [operator_eq returned bind deref_this ret fst].
  rewrite forallb_indices. split.
  - intros H. apply matrix_ext. intros i j.
    apply eqb_eq. specialize (H i). rewrite forallb_indices in H. apply H.
  - intros -> i. apply forallb_indices. intros j. now apply eqb_eq.
Qed.

Lemma product_get a b i j :
  (product a b).[i,j] = sigma (fun k => a.[i,k] * b.[k,j]).
Proof. unfold product. apply get_tabulate. Qed.

Lemma scale_product s this :
  scale s this =
  (This, product this (diagonal (scale_diagonal s))).
Proof.
  unfold scale, bind, ret. rewrite operator_mul_assign_product.
  f_equal.
Qed.

Lemma mirror_product xAxis yAxis zAxis this :
  mirror xAxis yAxis zAxis this =
  (This, product this (diagonal (mirror_diagonal xAxis yAxis zAxis))).
Proof.
  unfold mirror, bind, ret. rewrite operator_mul_assign_product.
  destruct xAxis, yAxis, zAxis; reflexivity.
Qed.

Lemma mirror_diagonal_square xAxis yAxis zAxis :
  let d := diagonal (mirror_diagonal xAxis yAxis zAxis) in
  product d d = identity.
Proof. destruct xAxis, yAxis, zAxis; entrywise. Qed.

(** *** Multiplication, identity, and the in-place transforms *)

(** C2.  For all matrices a and b, [a.operator*(b)] returns the standard
    4x4 product: entry [i][j] of the result is the sum over k of
    a[i][k]*b[k][j], for every i, j in 0..3.  The receiver is the same after
    the call, and the right operand, taken by const reference, is only read. *)
Theorem operator_mul_is_matrix_product (a b : Matrix4 T) :
  (forall i j : index,
     (returned (operator_mul b a)).[i,j] = sigma (fun k => a.[i,k] * b.[k,j]))
  /\ returned (operator_mul b a) = product a b
  /\ receiver_after (operator_mul b a) = a.
Proof.
  assert (E : returned (operator_mul b a) = product a b) by apply times_product.
  split; [| split].
  - intros i j. rewrite E. apply product_get.
  - exact E.
  - apply operator_mul_receiver.
Qed.

(** C3.  [m.translate(v)] adds v.x, v.y, v.z to entries [0][3], [1][3],
    [2][3] and leaves the other thirteen entries as they were; [toPosition()]
    afterwards returns the previous position plus v. *)
Theorem translate_adds_to_last_column (m : Matrix4 T) (v : Vector3 T) :
  let m' := referent (translate v m) in
  m'.[i0,i3] = m.[i0,i3] + x v
  /\ m'.[i1,i3] = m.[i1,i3] + y v
  /\ m'.[i2,i3] = m.[i2,i3] + z v
  /\ (forall i j, translated i j = false -> m'.[i,j] = m.[i,j])
  /\ length (filter (fun ij => negb (translated (fst ij) (snd ij)))
                    (list_prod indices indices)) = 13%nat
  /\ returned (toPosition m') = vadd (returned (toPosition m)) v.
Proof.
  explode m. destruct v as [vx vy vz]. cbv zeta.
  repeat split; try reflexivity.
  intros [] [] H; try reflexivity; discriminate H.
Qed.

(** Whatever [std::cos], [std::sin] and [fmod] compute, [m.rotateZ(angle)]
    replaces m by its product on the right with the matrix [[c, -s, 0, 0],
    [s, c, 0, 0], [0, 0, 1, 0], [0, 0, 0, 1]], c and s being the values the
    code gets for [cos(rad)] and [sin(rad)], and returns the reference to the
    updated receiver; [rotateX] and [rotateY] do the same about their axes.
    What c and s are is settled over the real numbers, further down. *)
Lemma rotate_product (m : Matrix4 T) (angle : T) :
  let c := cos (radians angle) in
  let s := sin (radians angle) in
  rotateZ angle m = (This, product m (rotation_z c s))
  /\ rotateX angle m = (This, product m (rotation_x c s))
  /\ rotateY angle m = (This, product m (rotation_y c s))
  /\ (forall i, (rotation_z c s).[i0,i] =
                match i with i0 => c | i1 => - s | _ => zero end)
  /\ (forall i, (rotation_z c s).[i1,i] =
                match i with i0 => s | i1 => c | _ => zero end)
  /\ (forall i, (rotation_z c s).[i2,i] =
                match i with i2 => one | _ => zero end)
  /\ (forall i, (rotation_z c s).[i3,i] =
                match i with i3 => one | _ => zero end).
Proof.
  cbv zeta.
  unfold rotateZ, rotateX, rotateY, bind, ret.
  rewrite !operator_mul_assign_product.
  repeat split; try (intros []; reflexivity).
Qed.

(** C5.  Mirroring is an involution: [m.mirror(x, y, z)] called twice with
    the same flags restores m, because [mirror] multiplies on the right by a
    diagonal matrix with entries in {-1, 1}, whose square is the identity. *)
Theorem mirror_twice_restores (m : Matrix4 T) (xAxis yAxis zAxis : bool) :
  let d := diagonal (mirror_diagonal xAxis yAxis zAxis) in
  referent (mirror xAxis yAxis zAxis (referent (mirror xAxis yAxis zAxis m))) = m
  /\ mirror xAxis yAxis zAxis m = (This, product m d)
  /\ (forall i, d.[i,i] = one \/ d.[i,i] = - one)
  /\ (forall i j, i <> j -> d.[i,j] = zero)
  /\ product d d = identity.
Proof.
  cbv zeta. split; [| split; [| split; [| split]]].
  - rewrite !mirror_product. unfold referent, snd.
    rewrite product_assoc.
    rewrite (mirror_diagonal_square xAxis yAxis zAxis).
    apply product_identity_r.
  - apply mirror_product.
  - intros []; destruct xAxis, yAxis, zAxis; cbn; auto.
  - intros [] [] H; try reflexivity; now elim H.
  - apply mirror_diagonal_square.
Qed.

(** C6.  [m.scale(s)] replaces m by its product on the right with
    diag(s.x, s.y, s.z, 1); scaling by (1, 1, 1) leaves every matrix as it
    was. *)
Theorem scale_right_multiplies_by_diagonal (m : Matrix4 T) (s : Vector3 T) :
  scale s m = (This, product m (diagonal (scale_diagonal s)))
  /\ referent (scale (mkVector3 one one one) m) = m.
Proof.
  split.
  - apply scale_product.
  - rewrite scale_product. unfold referent, snd.
    replace (diagonal (scale_diagonal (mkVector3 one one one))) with identity
      by reflexivity.
    apply product_identity_r.
Qed.

(** C7.  The default-constructed matrix is the identity matrix, and it is a
    two-sided identity of the multiplication: [Matrix4() * m == m] and
    [m * Matrix4() == m] for every m. *)
Theorem default_matrix_is_identity (m : Matrix4 T) :
  (forall i j, Matrix4_default.[i,j] = if index_eqb i j then one else zero)
  /\ times Matrix4_default m = m
  /\ times m Matrix4_default = m
  /\ returned (operator_eq m (times Matrix4_default m)) = true
  /\ returned (operator_eq m (times m Matrix4_default)) = true.
Proof.
  assert (L : times Matrix4_default m = m).
  { rewrite times_product, Matrix4_default_identity. apply product_identity_l. }
  assert (R : times m Matrix4_default = m).
  { rewrite times_product, Matrix4_default_identity. apply product_identity_r. }
  repeat split; try assumption.
  - intros [] []; reflexivity.
  - now apply operator_eq_true.
  - now apply operator_eq_true.
Qed.

(** *** The other operators, and how the transforms compose *)

Ltac use_affine H :=
  cbv in H; destruct H as (? & ? & ? & ?); subst.

Lemma existsb_negb_forallb {A} (p q : A -> bool) (l : list A) :
  (forall a, q a = negb (p a)) ->
  existsb q l = negb (forallb p l).
Proof.
  intros E. induction l as [| a l IH]; cbn [existsb forallb].
  - reflexivity.
  - rewrite IH, E. now destruct (p a).
Qed.

Lemma plus_get a b i j : (plus a b).[i,j] = a.[i,j] + b.[i,j].
Proof. explode a; explode b; destruct i, j; reflexivity. Qed.

Lemma minus_get a b i j : (minus a b).[i,j] = a.[i,j] - b.[i,j].
Proof. explode a; explode b; destruct i, j; reflexivity. Qed.

(** [operator+] and [operator-] add and subtract entry by entry, and undo
    each other; so do [+=] and [-=] on the receiver. *)
Theorem add_then_sub_restores (a b : Matrix4 T) :
  (forall i j, (plus a b).[i,j] = a.[i,j] + b.[i,j])
  /\ (forall i j, (minus a b).[i,j] = a.[i,j] - b.[i,j])
  /\ minus (plus a b) b = a
  /\ plus (minus a b) b = a
  /\ plus a b = plus b a
  /\ operator_add_assign b a = (This, plus a b)
  /\ referent (operator_sub_assign b (referent (operator_add_assign b a))) = a.
Proof.
  split; [intros; apply plus_get |].
  split; [intros; apply minus_get |].
  explode a; explode b. repeat split; entrywise.
Qed.

(** [operator!=] answers the opposite of [operator==], and says [false]
    exactly for equal matrices. *)
Theorem operator_ne_negates_operator_eq (a b : Matrix4 T) :
  returned (operator_ne b a) = negb (returned (operator_eq b a))
  /\ (returned (operator_ne b a) = false <-> a = b)
  /\ (returned (operator_ne b a) = true <-> a <> b).
Proof.
  assert (N : returned (operator_ne b a) = negb (returned (operator_eq b a))).
  { cbv [operator_ne operator_eq returned bind deref_this ret fst].
    apply existsb_negb_forallb. intros i.
    now apply existsb_negb_forallb. }
  pose proof (operator_eq_true b a) as E.
  split; [exact N | split].
  - rewrite N, negb_false_iff. exact E.
  - rewrite N, negb_true_iff, <- not_true_iff_false.
    split; intros H K; apply H; now apply E.
Qed.

(** The product is associative and distributes over the sum on both
    sides. *)
Theorem times_associates_and_distributes (a b c : Matrix4 T) :
  times (times a b) c = times a (times b c)
  /\ times a (plus b c) = plus (times a b) (times a c)
  /\ times (plus a b) c = plus (times a c) (times b c).
Proof.
  explode a; explode b; explode c. repeat split; entrywise.
Qed.

Lemma times_vector_times (a b : Matrix4 T) (v : Vector3 T) :
  affine b ->
  times_vector (times a b) v = times_vector a (times_vector b v).
Proof.
  intros H. explode a; explode b; destruct v as [vx vy vz].
  use_affine H. entrywise.
Qed.

Lemma times_vector_default (v : Vector3 T) : times_vector Matrix4_default v = v.
Proof. destruct v as [vx vy vz]. entrywise. Qed.

(** [m * v] is the point [v] moved by [m]: it reads rows 0..2 against
    (v.x, v.y, v.z, 1).  The default matrix leaves every point in place, the
    origin goes to [toPosition()], and applying a product is applying its
    factors in turn, provided the right factor is affine. *)
Theorem times_vector_composes (a b : Matrix4 T) (v : Vector3 T) :
  affine b ->
  times_vector (times a b) v = times_vector a (times_vector b v)
  /\ times_vector Matrix4_default v = v
  /\ times_vector a (mkVector3 zero zero zero) = returned (toPosition a)
  /\ x (times_vector a v)
     = a.[i0,i0] * x v + a.[i0,i1] * y v + a.[i0,i2] * z v + a.[i0,i3].
Proof.
  intros H. explode a; explode b; destruct v as [vx vy vz].
  use_affine H. repeat split; entrywise.
Qed.

(** [translate] moves the image of every point by the translation; on an
    affine matrix it is the product with the translation matrix on the
    left. *)
Theorem translate_is_left_translation (m : Matrix4 T) (t v : Vector3 T) :
  affine m ->
  referent (translate t m) = product (translation_matrix t) m
  /\ times_vector (referent (translate t m)) v = vadd (times_vector m v) t.
Proof.
  intros H. explode m; destruct t as [tx ty tz]; destruct v as [vx vy vz].
  use_affine H. repeat split; entrywise.
Qed.

(** Translations add up, in either order, and the opposite translation
    undoes one. *)
Theorem translate_composes (m : Matrix4 T) (u v : Vector3 T) :
  referent (translate v (referent (translate u m)))
  = referent (translate (vadd u v) m)
  /\ referent (translate v (referent (translate u m)))
     = referent (translate u (referent (translate v m)))
  /\ referent (translate (vopp v) (referent (translate v m))) = m.
Proof.
  explode m; destruct u as [ux uy uz]; destruct v as [vx vy vz].
  repeat split; entrywise.
Qed.

(** [scale], [mirror] and the three rotations leave the position column
    alone: [toPosition()] is the same after them. *)
Theorem linear_transforms_keep_position (m : Matrix4 T) (s : Vector3 T)
    (xAxis yAxis zAxis : bool) (angle : T) :
  returned (toPosition (referent (scale s m))) = returned (toPosition m)
  /\ returned (toPosition (referent (mirror xAxis yAxis zAxis m)))
     = returned (toPosition m)
  /\ returned (toPosition (referent (rotateX angle m)))
     = returned (toPosition m)
  /\ returned (toPosition (referent (rotateY angle m)))
     = returned (toPosition m)
  /\ returned (toPosition (referent (rotateZ angle m)))
     = returned (toPosition m).
Proof.
  explode m; destruct s as [sx sy sz].
  unfold rotateX, rotateY, rotateZ. cbv zeta.
  generalize (cos (radians angle)) (sin (radians angle)). intros c d.
  destruct xAxis, yAxis, zAxis; repeat split; entrywise.
Qed.

(** The transforms keep a matrix affine: from a last row (0, 0, 0, 1),
    [translate], [scale], [mirror], the rotations and the product with an
    affine matrix give a last row (0, 0, 0, 1) again. *)
Theorem transforms_keep_affine (m b : Matrix4 T) (v : Vector3 T)
    (xAxis yAxis zAxis : bool) (angle : T) :
  affine m ->
  affine Matrix4_default
  /\ affine (referent (translate v m))
  /\ affine (referent (scale v m))
  /\ affine (referent (mirror xAxis yAxis zAxis m))
  /\ affine (referent (rotateX angle m))
  /\ affine (referent (rotateY angle m))
  /\ affine (referent (rotateZ angle m))
  /\ (affine b -> affine (times m b)).
Proof.
  intros H. explode m; explode b; destruct v as [vx vy vz].
  use_affine H.
  unfold rotateX, rotateY, rotateZ. cbv zeta.
  generalize (cos (radians angle)) (sin (radians angle)). intros c d.
  repeat match goal with |- _ /\ _ => split end;
    try (destruct xAxis, yAxis, zAxis);
    try (intros K; use_affine K);
    cbv; repeat split; ring.
Qed.

(** [mirror] is [scale] by -1 on the flagged axes; two scalings are one
    scaling by the products of the factors, and a scaling and a mirroring
    can be swapped. *)
Theorem mirror_is_scale (m : Matrix4 T) (s t : Vector3 T)
    (xAxis yAxis zAxis : bool) :
  mirror xAxis yAxis zAxis m = scale (mirror_vector xAxis yAxis zAxis) m
  /\ referent (scale t (referent (scale s m))) = referent (scale (vmul s t) m)
  /\ referent (mirror xAxis yAxis zAxis (referent (scale s m)))
     = referent (scale s (referent (mirror xAxis yAxis zAxis m))).
Proof.
  explode m; destruct s as [sx sy sz]; destruct t as [tx ty tz].
  destruct xAxis, yAxis, zAxis; repeat split; entrywise.
Qed.

(** *** The inverse *)

Lemma eqb_false_iff (a b : T) : eqb a b = false <-> a <> b.
Proof.
  rewrite <- (eqb_eq a b). destruct (eqb a b); split; congruence.
Qed.

(** The [det] the code computes from the first column of cofactors in
    [result] is the determinant. *)
Lemma operator_neg_unfold (m : Matrix4 T) :
  operator_neg m =
  (if eqb (determinant m) zero then Matrix4_default
   else tabulate (fun i j => cofactor m j i * (one / determinant m)), m).
Proof.
  explode m.
  cbv [operator_neg bind ret deref_this].
  cbv beta iota zeta delta
    [Matrix4_default get set subscript set_row row_get row_set
     r0 r1 r2 r3 c0 c1 c2 c3 indices fold_left].
  match goal with
  | |- context [eqb ?d zero] =>
      replace (determinant _) with d by (cbv; ring)
  end.
  destruct (eqb _ zero); [reflexivity |].
  entrywise.
Qed.

(** C8.  When the determinant is zero, [operator-] raises nothing and
    returns a freshly default-constructed identity matrix; whatever the
    determinant, the receiver is the same after the call. *)
Theorem operator_neg_singular (m : Matrix4 T) :
  determinant m = zero ->
  returned (operator_neg m) = Matrix4_default
  /\ Matrix4_default = identity
  /\ forall a : Matrix4 T, receiver_after (operator_neg a) = a.
Proof.
  intros H. split; [| split].
  - rewrite operator_neg_unfold, H.
    replace (eqb zero zero) with true by (symmetry; now apply eqb_eq).
    reflexivity.
  - reflexivity.
  - intros a. rewrite operator_neg_unfold. reflexivity.
Qed.

(** Where the code divides, [T] is a field: [1 / a] is the inverse of a
    nonzero [a]. *)
Hypothesis one_neq_zero : one <> zero.
Hypothesis div_mul_inv : forall a b : T, a / b = a * (one / b).
Hypothesis inv_mul_l : forall a : T, a <> zero -> (one / a) * a = one.

Add Field T_is_field :
  (mk_field div (fun a => one / a) Tring one_neq_zero div_mul_inv inv_mul_l).

Lemma mul_inverse_r (a : T) : a <> zero -> a * (one / a) = one.
Proof. intros H. field. exact H. Qed.

Ltac inverse_entries K :=
  cbv in K |- *;
  f_equal; f_equal;
  first [ ring | etransitivity; [| exact K]; ring ].

(** The adjugate scaled by the inverse of the determinant is a left and a
    right inverse. *)
Lemma scaled_adjugate_inverse_l (m : Matrix4 T) :
  determinant m <> zero ->
  product (tabulate (fun i j => cofactor m j i * (one / determinant m))) m
  = identity.
Proof.
  intros H. pose proof (@mul_inverse_r _ H) as K.
  explode m. inverse_entries K.
Qed.

Lemma scaled_adjugate_inverse_r (m : Matrix4 T) :
  determinant m <> zero ->
  product m (tabulate (fun i j => cofactor m j i * (one / determinant m)))
  = identity.
Proof.
  intros H. pose proof (@mul_inverse_r _ H) as K.
  explode m. inverse_entries K.
Qed.

Lemma neg_nonsingular (m : Matrix4 T) :
  determinant m <> zero ->
  neg m = tabulate (fun i j => cofactor m j i * (one / determinant m)).
Proof.
  intros H. unfold neg. rewrite operator_neg_unfold.
  apply eqb_false_iff in H. rewrite H. reflexivity.
Qed.

(** C1.  For every matrix whose determinant is nonzero, over exact
    arithmetic, the unary [operator-] returns the inverse computed by
    cofactor expansion: [(-m) * m] and [m * (-m)] both equal the identity
    matrix. *)
Theorem operator_neg_is_inverse (m : Matrix4 T) :
  determinant m <> zero ->
  times (neg m) m = identity
  /\ times m (neg m) = identity
  /\ neg m = cofactor_inverse m.
Proof.
  intros H. rewrite !times_product, (@neg_nonsingular m H).
  split; [| split].
  - now apply scaled_adjugate_inverse_l.
  - now apply scaled_adjugate_inverse_r.
  - unfold cofactor_inverse. apply matrix_ext. intros i j.
    rewrite !get_tabulate. symmetry. apply div_mul_inv.
Qed.

(** *** Inverses compose *)

Lemma determinant_times (a b : Matrix4 T) :
  determinant (times a b) = determinant a * determinant b.
Proof. explode a; explode b. cbv. ring. Qed.

Lemma determinant_default : determinant Matrix4_default = one.
Proof. cbv. ring. Qed.

Lemma times_assoc (a b c : Matrix4 T) :
  times (times a b) c = times a (times b c).
Proof. rewrite !times_product. apply product_assoc. Qed.

Lemma times_default_l (m : Matrix4 T) : times Matrix4_default m = m.
Proof. rewrite times_product. apply product_identity_l. Qed.

Lemma times_default_r (m : Matrix4 T) : times m Matrix4_default = m.
Proof. rewrite times_product. apply product_identity_r. Qed.

Lemma neg_times_l (m : Matrix4 T) :
  determinant m <> zero -> times (neg m) m = Matrix4_default.
Proof.
  intros H. rewrite times_product, (@neg_nonsingular m H).
  now apply scaled_adjugate_inverse_l.
Qed.

Lemma neg_times_r (m : Matrix4 T) :
  determinant m <> zero -> times m (neg m) = Matrix4_default.
Proof.
  intros H. rewrite times_product, (@neg_nonsingular m H).
  now apply scaled_adjugate_inverse_r.
Qed.

Lemma neg_singular (m : Matrix4 T) :
  determinant m = zero -> neg m = Matrix4_default.
Proof.
  intros H. unfold neg. rewrite operator_neg_unfold, H.
  replace (eqb zero zero) with true by (symmetry; now apply eqb_eq).
  reflexivity.
Qed.

(** A matrix has at most one inverse. *)
Lemma inverse_unique (m l r : Matrix4 T) :
  times l m = Matrix4_default -> times m r = Matrix4_default -> l = r.
Proof.
  intros L R.
  rewrite <- (times_default_r l), <- R, <- times_assoc, L.
  apply times_default_l.
Qed.

Lemma mul_nonzero (a b : T) : a <> zero -> b <> zero -> a * b <> zero.
Proof.
  intros A B E. apply B.
  replace b with ((one / a) * (a * b)) by (field; exact A).
  rewrite E. ring.
Qed.

Lemma determinant_neg_nonzero (m : Matrix4 T) :
  determinant m <> zero -> determinant (neg m) <> zero.
Proof.
  intros H E.
  pose proof (f_equal determinant (@neg_times_l m H)) as D.
  rewrite determinant_times, determinant_default, E in D.
  apply one_neq_zero. rewrite <- D. ring.
Qed.

(** Negating twice gives back an invertible matrix. *)
Theorem neg_neg_invertible (m : Matrix4 T) :
  determinant m <> zero ->
  neg (neg m) = m /\ determinant (neg m) * determinant m = one.
Proof.
  intros H. split.
  - apply (inverse_unique (neg m)).
    + apply neg_times_l. now apply determinant_neg_nonzero.
    + now apply neg_times_l.
  - rewrite <- determinant_times, neg_times_l by exact H.
    apply determinant_default.
Qed.

(** Negating a singular matrix twice gives the default, identity matrix,
    not the matrix itself: the first negation has already replaced it. *)
Theorem neg_neg_singular (m : Matrix4 T) :
  determinant m = zero ->
  neg (neg m) = Matrix4_default /\ neg Matrix4_default = Matrix4_default.
Proof.
  intros H.
  assert (D : neg Matrix4_default = Matrix4_default).
  { apply (inverse_unique Matrix4_default).
    - apply neg_times_l. rewrite determinant_default. exact one_neq_zero.
    - apply times_default_l. }
  split; [| exact D].
  rewrite (@neg_singular m H). exact D.
Qed.

(** The inverse of a product is the product of the inverses, in the
    opposite order. *)
Theorem neg_times (a b : Matrix4 T) :
  determinant a <> zero ->
  determinant b <> zero ->
  neg (times a b) = times (neg b) (neg a)
  /\ determinant (times a b) = determinant a * determinant b.
Proof.
  intros A B. split; [| apply determinant_times].
  apply (inverse_unique (times a b)).
  - apply neg_times_l. rewrite determinant_times. now apply mul_nonzero.
  - rewrite times_assoc, <- (times_assoc b), (@neg_times_r b B), times_default_l.
    now apply neg_times_r.
Qed.

Lemma neg_affine (m : Matrix4 T) : affine m -> affine (neg m).
Proof.
  intros H. unfold neg. rewrite operator_neg_unfold.
  destruct (eqb (determinant m) zero) eqn:E.
  - cbv. repeat split.
  - apply eqb_false_iff in E. pose proof (@mul_inverse_r _ E) as K.
    explode m. use_affine H. cbv in K |- *.
    repeat split; first [ ring | etransitivity; [| exact K]; ring ].
Qed.

(** [operator-] keeps a matrix affine, whether it inverts it or falls back
    to the default matrix. *)
Theorem neg_keeps_affine (m : Matrix4 T) :
  affine m ->
  affine (neg m)
  /\ (determinant m = zero -> neg m = Matrix4_default).
Proof.
  intros H. split; [now apply neg_affine | apply neg_singular].
Qed.

(** Moving a point by an invertible affine matrix and then by its negation
    brings the point back, and the other way round. *)
Theorem times_vector_round_trip (m : Matrix4 T) (v : Vector3 T) :
  affine m ->
  determinant m <> zero ->
  times_vector (neg m) (times_vector m v) = v
  /\ times_vector m (times_vector (neg m) v) = v.
Proof.
  intros A D. split.
  - rewrite <- times_vector_times by exact A.
    rewrite (@neg_times_l m D). apply times_vector_default.
  - rewrite <- times_vector_times by now apply neg_affine.
    rewrite (@neg_times_r m D). apply times_vector_default.
Qed.

(** Scaling by the reciprocal factors undoes a scaling whose factors are
    all nonzero. *)
Theorem scale_by_reciprocals_restores (m : Matrix4 T) (s : Vector3 T) :
  x s <> zero -> y s <> zero -> z s <> zero ->
  referent (scale (vinv s) (referent (scale s m))) = m.
Proof.
  intros X Y Z. explode m. destruct s as [sx sy sz]. cbn in X, Y, Z.
  cbv. repeat f_equal; field; assumption.
Qed.

End Matrix4_T.

Arguments Matrix4_default {T}.
Arguments Matrix4_of {T}.
Arguments operator_mul {T}.
Arguments times {T}.
Arguments operator_mul_assign {T}.
Arguments operator_eq {T}.
Arguments translate {T}.
Arguments scale {T}.
Arguments mirror {T}.
Arguments toPosition {T}.
Arguments operator_neg {T}.
Arguments neg {T}.
Arguments literal {T}.
Arguments emPI {T}.
Arguments radians {T}.
Arguments rotateX {T}.
Arguments rotateY {T}.
Arguments rotateZ {T}.
Arguments tabulate {T}.
Arguments sigma {T}.
Arguments product {T}.
Arguments identity {T}.
Arguments diagonal {T}.
Arguments mirror_diagonal {T}.
Arguments scale_diagonal {T}.
Arguments rotation_x {T}.
Arguments rotation_y {T}.
Arguments rotation_z {T}.
Arguments det3 {T}.
Arguments minor {T}.
Arguments cofactor {T}.
Arguments determinant {T}.
Arguments cofactor_inverse {T}.
Arguments vadd {T}.

Arguments operator_add {T}.
Arguments operator_sub {T}.
Arguments plus {T}.
Arguments minus {T}.
Arguments operator_add_assign {T}.
Arguments operator_sub_assign {T}.
Arguments operator_ne {T}.
Arguments operator_mul_vector {T}.
Arguments times_vector {T}.
Arguments affine {T}.
Arguments translation_matrix {T}.
Arguments vopp {T}.
Arguments vmul {T}.
Arguments vinv {T}.
Arguments mirror_vector {T}.

(* ------------------------------------------------------------------ *)
(** ** [typedef Matrix4<float> Matrix4f]

    The instance at the rationals: [float] and [double] read as exact
    numbers.  It runs the code on concrete matrices. *)
(* ------------------------------------------------------------------ *)

Definition Matrix4f : Type := Matrix4 Qc.

(** [fmod(a, b)]: what is left of [a] once the whole multiples of [b] that
    fit, counted toward zero, are taken away. *)
Definition Qc_fmod (a b : Qc) : Qc :=
  let q := this (a / b)%Qc in
  (a - b * Q2Qc (inject_Z (Z.quot (Qnum q) (Zpos (Qden q)))))%Qc.

(** Rational stand-ins for [std::cos] and [std::sin]: the Taylor
    polynomials of degree 4 and 5. *)
Definition Qc_cos (a : Qc) : Qc :=
  (1 - a * a / Q2Qc 2 + a * a * a * a / Q2Qc 24)%Qc.

Definition Qc_sin (a : Qc) : Qc :=
  (a - a * a * a / Q2Qc 6 + a * a * a * a * a / Q2Qc 120)%Qc.

Definition Matrix4f_of := @Matrix4_of Qc.
Definition Matrix4f_default : Matrix4f := Matrix4_default 0%Qc 1%Qc.
Definition Matrix4f_neg : Matrix4f -> Matrix4f :=
  neg 0%Qc 1%Qc Qcplus Qcmult Qcminus Qcopp Qcdiv Qc_eq_bool.
Definition Matrix4f_times : Matrix4f -> Matrix4f -> Matrix4f :=
  times 0%Qc 1%Qc Qcplus Qcmult.
Definition Matrix4f_eq (a b : Matrix4f) : bool :=
  returned (operator_eq Qc_eq_bool b a).
Definition Matrix4f_determinant : Matrix4f -> Qc :=
  determinant 0%Qc Qcplus Qcmult Qcminus Qcopp.
Definition Matrix4f_translate := translate Qcplus.
Definition Matrix4f_scale := scale 0%Qc 1%Qc Qcplus Qcmult.
Definition Matrix4f_mirror := mirror 0%Qc 1%Qc Qcplus Qcmult Qcopp.
Definition Matrix4f_rotateX :=
  rotateX 0%Qc 1%Qc Qcplus Qcmult Qcopp Qcdiv Qc_cos Qc_sin Qc_fmod.
Definition Matrix4f_rotateY :=
  rotateY 0%Qc 1%Qc Qcplus Qcmult Qcopp Qcdiv Qc_cos Qc_sin Qc_fmod.
Definition Matrix4f_rotateZ :=
  rotateZ 0%Qc 1%Qc Qcplus Qcmult Qcopp Qcdiv Qc_cos Qc_sin Qc_fmod.

(** An integer as a matrix entry. *)
Definition entry (n : Z) : Qc := Q2Qc (inject_Z n).

(** A sprite transform: scale by (2, 4, 5), shear, move to (3, 5, 7). *)
Definition sprite : Matrix4f :=
  Matrix4f_of (entry 2) (entry 0) (entry 0) (entry 3)
              (entry 0) (entry 4) (entry 0) (entry 5)
              (entry 1) (entry 0) (entry 5) (entry 7)
              (entry 0) (entry 0) (entry 0) (entry 1).

(** A projection onto the plane z = 0: singular. *)
Definition flat : Matrix4f :=
  Matrix4f_of (entry 1) (entry 0) (entry 0) (entry 2)
              (entry 0) (entry 1) (entry 0) (entry 3)
              (entry 0) (entry 0) (entry 0) (entry 0)
              (entry 0) (entry 0) (entry 0) (entry 1).

Definition shift : Vector3 Qc := mkVector3 (entry 10) (entry (-20)) (entry 30).

Lemma Qc_eq_bool_eq (a b : Qc) : Qc_eq_bool a b = true <-> a = b.
Proof.
  split.
  - apply Qc_eq_bool_correct.
  - intros ->. unfold Qc_eq_bool. destruct (Qc_eq_dec b b); congruence.
Qed.

Lemma Qc_one_neq_zero : 1%Qc <> 0%Qc.
Proof. discriminate. Qed.

Lemma Qc_div_mul_inv (a b : Qc) : (a / b = a * (1 / b))%Qc.
Proof. unfold Qcdiv. now rewrite Qcmult_1_l. Qed.

Lemma Qc_inv_mul_l (a : Qc) : a <> 0%Qc -> (1 / a * a = 1)%Qc.
Proof.
  intros H. unfold Qcdiv. rewrite Qcmult_1_l, Qcmult_comm.
  now apply Qcmult_inv_r.
Qed.

Example sprite_determinant : Matrix4f_determinant sprite = entry 40.
Proof. apply Qc_is_canon. vm_compute. reflexivity. Qed.

Example sprite_inverse :
  Matrix4f_eq (Matrix4f_neg sprite)
    (Matrix4f_of (Q2Qc (1#2)) (entry 0) (entry 0) (Q2Qc (-3#2))
                 (entry 0) (Q2Qc (1#4)) (entry 0) (Q2Qc (-5#4))
                 (Q2Qc (-1#10)) (entry 0) (Q2Qc (1#5)) (Q2Qc (-11#10))
                 (entry 0) (entry 0) (entry 0) (entry 1)) = true.
Proof. vm_compute. reflexivity. Qed.

Example flat_negated : Matrix4f_eq (Matrix4f_neg flat) Matrix4f_default = true.
Proof. vm_compute. reflexivity. Qed.

Example flat_determinant : Matrix4f_determinant flat = 0%Qc.
Proof. apply Qc_is_canon. vm_compute. reflexivity. Qed.

Example sprite_moved :
  returned (toPosition (referent (Matrix4f_translate shift sprite)))
  = mkVector3 (entry 13) (entry (-15)) (entry 37).
Proof.
  cbv -[Qcplus entry]. f_equal; apply Qc_is_canon; vm_compute; reflexivity.
Qed.

Example sprite_mirrored_in_x :
  Matrix4f_eq (referent (Matrix4f_mirror true false false sprite))
    (Matrix4f_of (entry (-2)) (entry 0) (entry 0) (entry 3)
                 (entry 0) (entry 4) (entry 0) (entry 5)
                 (entry (-1)) (entry 0) (entry 5) (entry 7)
                 (entry 0) (entry 0) (entry 0) (entry 1)) = true.
Proof. vm_compute. reflexivity. Qed.

Example sprite_rotated_full_turn :
  Matrix4f_eq (referent (Matrix4f_rotateZ (entry 360) sprite)) sprite = true.
Proof. vm_compute. reflexivity. Qed.

(** *** The theorems at [Matrix4f] *)

Lemma operator_neg_is_inverse_at_sprite :
  Matrix4f_determinant sprite <> 0%Qc
  /\ Matrix4f_times (Matrix4f_neg sprite) sprite = identity 0%Qc 1%Qc
  /\ Matrix4f_times sprite (Matrix4f_neg sprite) = identity 0%Qc 1%Qc.
Proof.
  assert (H : Matrix4f_determinant sprite <> 0%Qc).
  { rewrite sprite_determinant. intros E. apply Qc_eq_bool_eq in E.
    vm_compute in E. discriminate E. }
  split; [exact H |].
  destruct (operator_neg_is_inverse Qc 0%Qc 1%Qc Qcplus Qcmult Qcminus Qcopp Qcdiv Qc_eq_bool
              Qcrt Qc_eq_bool_eq Qc_one_neq_zero Qc_div_mul_inv Qc_inv_mul_l
              sprite H) as (L & R & _).
  split; [exact L | exact R].
Defined.

Lemma operator_neg_singular_at_flat :
  Matrix4f_determinant flat = 0%Qc
  /\ Matrix4f_neg flat = Matrix4f_default.
Proof.
  split; [exact flat_determinant |].
  exact (proj1 (operator_neg_singular Qc 0%Qc 1%Qc Qcplus Qcmult Qcminus Qcopp Qcdiv Qc_eq_bool
                  Qcrt Qc_eq_bool_eq flat flat_determinant)).
Defined.

Lemma operator_mul_is_matrix_product_at_sprite :
  Matrix4f_times sprite flat = product 0%Qc Qcplus Qcmult sprite flat.
Proof.
  exact (proj1 (proj2 (operator_mul_is_matrix_product Qc 0%Qc 1%Qc Qcplus Qcmult Qcminus Qcopp
                         Qcrt sprite flat))).
Defined.

Lemma mirror_twice_restores_at_sprite :
  referent (Matrix4f_mirror true false true
              (referent (Matrix4f_mirror true false true sprite))) = sprite.
Proof.
  exact (proj1 (mirror_twice_restores Qc 0%Qc 1%Qc Qcplus Qcmult Qcminus Qcopp
                  Qcrt sprite true false true)).
Defined.

Lemma scale_right_multiplies_at_sprite :
  referent (Matrix4f_scale (mkVector3 1%Qc 1%Qc 1%Qc) sprite) = sprite.
Proof.
  exact (proj2 (scale_right_multiplies_by_diagonal Qc 0%Qc 1%Qc Qcplus Qcmult Qcminus Qcopp
                  Qcrt sprite shift)).
Defined.

Lemma default_matrix_is_identity_at_sprite :
  Matrix4f_eq (Matrix4f_times Matrix4f_default sprite) sprite = true
  /\ Matrix4f_eq (Matrix4f_times sprite Matrix4f_default) sprite = true.
Proof.
  destruct (default_matrix_is_identity Qc 0%Qc 1%Qc Qcplus Qcmult Qcminus Qcopp Qc_eq_bool
              Qcrt Qc_eq_bool_eq sprite)
    as (_ & _ & _ & L & R).
  split; [exact L | exact R].
Defined.

(** *** More of [Matrix4f] *)

Definition Matrix4f_plus : Matrix4f -> Matrix4f -> Matrix4f :=
  plus 0%Qc 1%Qc Qcplus.
Definition Matrix4f_minus : Matrix4f -> Matrix4f -> Matrix4f :=
  minus 0%Qc 1%Qc Qcminus.
Definition Matrix4f_ne (a b : Matrix4f) : bool :=
  returned (operator_ne Qc_eq_bool b a).
Definition Matrix4f_times_vector : Matrix4f -> Vector3 Qc -> Vector3 Qc :=
  times_vector 0%Qc 1%Qc Qcplus Qcmult.
Definition Matrix4f_affine : Matrix4f -> Prop := affine 0%Qc 1%Qc.

Definition corner : Vector3 Qc := mkVector3 (entry 1) (entry 2) (entry 3).

Lemma sprite_affine : Matrix4f_affine sprite.
Proof. repeat split; apply Qc_is_canon; reflexivity. Qed.

Lemma sprite_nonsingular : Matrix4f_determinant sprite <> 0%Qc.
Proof.
  rewrite sprite_determinant. intros E. apply Qc_eq_bool_eq in E.
  vm_compute in E. discriminate E.
Qed.

Lemma shift_nonzero :
  x shift <> 0%Qc /\ y shift <> 0%Qc /\ z shift <> 0%Qc.
Proof.
  repeat split; intros E; apply Qc_eq_bool_eq in E; vm_compute in E;
    discriminate E.
Qed.

Example corner_moved_by_sprite :
  Matrix4f_times_vector sprite corner
  = mkVector3 (entry 5) (entry 13) (entry 23).
Proof.
  cbv -[Qcplus Qcmult entry]. f_equal; apply Qc_is_canon; vm_compute;
    reflexivity.
Qed.

Example sprite_differs_from_flat : Matrix4f_ne sprite flat = true.
Proof. vm_compute. reflexivity. Qed.

Lemma add_then_sub_restores_at_sprite :
  Matrix4f_minus (Matrix4f_plus sprite flat) flat = sprite.
Proof.
  exact (proj1 (proj2 (proj2 (add_then_sub_restores Qc 0%Qc 1%Qc Qcplus Qcmult Qcminus Qcopp
                                Qcrt sprite flat)))).
Defined.

Lemma operator_ne_negates_operator_eq_at_sprite :
  Matrix4f_ne sprite flat = negb (Matrix4f_eq sprite flat).
Proof.
  exact (proj1 (operator_ne_negates_operator_eq Qc Qc_eq_bool
                  Qc_eq_bool_eq sprite flat)).
Defined.

Lemma times_associates_at_sprite :
  Matrix4f_times (Matrix4f_times sprite flat) sprite
  = Matrix4f_times sprite (Matrix4f_times flat sprite).
Proof.
  exact (proj1 (times_associates_and_distributes Qc 0%Qc 1%Qc Qcplus Qcmult Qcminus Qcopp
                  Qcrt sprite flat sprite)).
Defined.

Lemma times_vector_composes_at_sprite :
  Matrix4f_affine sprite
  /\ Matrix4f_times_vector (Matrix4f_times flat sprite) corner
     = Matrix4f_times_vector flat (Matrix4f_times_vector sprite corner).
Proof.
  split; [exact sprite_affine |].
  exact (proj1 (times_vector_composes Qc 0%Qc 1%Qc Qcplus Qcmult Qcminus Qcopp
                  Qcrt flat sprite corner sprite_affine)).
Defined.

Lemma translate_is_left_translation_at_sprite :
  Matrix4f_affine sprite
  /\ referent (Matrix4f_translate shift sprite)
     = product 0%Qc Qcplus Qcmult (translation_matrix 0%Qc 1%Qc shift) sprite.
Proof.
  split; [exact sprite_affine |].
  exact (proj1 (translate_is_left_translation Qc 0%Qc 1%Qc Qcplus Qcmult Qcminus Qcopp
                  Qcrt sprite shift corner sprite_affine)).
Defined.

Lemma translate_composes_at_sprite :
  referent (Matrix4f_translate (vopp Qcopp shift)
              (referent (Matrix4f_translate shift sprite))) = sprite.
Proof.
  exact (proj2 (proj2 (translate_composes Qc 0%Qc 1%Qc Qcplus Qcmult Qcminus Qcopp
                         Qcrt sprite corner shift))).
Defined.

Lemma linear_transforms_keep_position_at_sprite :
  returned (toPosition (referent (Matrix4f_rotateZ (entry 90) sprite)))
  = returned (toPosition sprite).
Proof.
  exact (proj2 (proj2 (proj2 (proj2
           (linear_transforms_keep_position Qc 0%Qc 1%Qc Qcplus Qcmult Qcminus Qcopp
              Qcdiv Qc_cos Qc_sin Qc_fmod Qcrt sprite shift true false true
              (entry 90)))))).
Defined.

Lemma transforms_keep_affine_at_sprite :
  Matrix4f_affine sprite
  /\ Matrix4f_affine (referent (Matrix4f_rotateX (entry 30) sprite)).
Proof.
  split; [exact sprite_affine |].
  exact (proj1 (proj2 (proj2 (proj2 (proj2
           (transforms_keep_affine Qc 0%Qc 1%Qc Qcplus Qcmult Qcminus Qcopp
              Qcdiv Qc_cos Qc_sin Qc_fmod Qcrt sprite flat shift
              true false true (entry 30) sprite_affine)))))).
Defined.

Lemma mirror_is_scale_at_sprite :
  Matrix4f_mirror true false true sprite
  = Matrix4f_scale (mirror_vector 1%Qc Qcopp true false true) sprite.
Proof.
  exact (proj1 (mirror_is_scale Qc 0%Qc 1%Qc Qcplus Qcmult Qcminus Qcopp
                  Qcrt sprite shift corner true false true)).
Defined.

Lemma neg_neg_invertible_at_sprite :
  Matrix4f_determinant sprite <> 0%Qc
  /\ Matrix4f_neg (Matrix4f_neg sprite) = sprite.
Proof.
  split; [exact sprite_nonsingular |].
  exact (proj1 (neg_neg_invertible Qc 0%Qc 1%Qc Qcplus Qcmult Qcminus Qcopp Qcdiv Qc_eq_bool
                  Qcrt Qc_eq_bool_eq Qc_one_neq_zero Qc_div_mul_inv Qc_inv_mul_l sprite sprite_nonsingular)).
Defined.

Lemma neg_neg_singular_at_flat :
  Matrix4f_determinant flat = 0%Qc
  /\ Matrix4f_neg (Matrix4f_neg flat) = Matrix4f_default.
Proof.
  split; [exact flat_determinant |].
  exact (proj1 (neg_neg_singular Qc 0%Qc 1%Qc Qcplus Qcmult Qcminus Qcopp Qcdiv Qc_eq_bool
                  Qcrt Qc_eq_bool_eq Qc_one_neq_zero Qc_div_mul_inv Qc_inv_mul_l flat flat_determinant)).
Defined.

Lemma neg_times_at_sprite :
  Matrix4f_determinant sprite <> 0%Qc
  /\ Matrix4f_neg (Matrix4f_times sprite sprite)
     = Matrix4f_times (Matrix4f_neg sprite) (Matrix4f_neg sprite).
Proof.
  split; [exact sprite_nonsingular |].
  exact (proj1 (neg_times Qc 0%Qc 1%Qc Qcplus Qcmult Qcminus Qcopp Qcdiv Qc_eq_bool
                  Qcrt Qc_eq_bool_eq Qc_one_neq_zero Qc_div_mul_inv Qc_inv_mul_l sprite sprite sprite_nonsingular sprite_nonsingular)).
Defined.

Lemma neg_keeps_affine_at_sprite :
  Matrix4f_affine sprite /\ Matrix4f_affine (Matrix4f_neg sprite).
Proof.
  split; [exact sprite_affine |].
  exact (proj1 (neg_keeps_affine Qc 0%Qc 1%Qc Qcplus Qcmult Qcminus Qcopp Qcdiv Qc_eq_bool
                  Qcrt Qc_eq_bool_eq Qc_one_neq_zero Qc_div_mul_inv Qc_inv_mul_l sprite sprite_affine)).
Defined.

Lemma times_vector_round_trip_at_sprite :
  Matrix4f_affine sprite
  /\ Matrix4f_determinant sprite <> 0%Qc
  /\ Matrix4f_times_vector (Matrix4f_neg sprite)
       (Matrix4f_times_vector sprite corner) = corner.
Proof.
  split; [exact sprite_affine | split; [exact sprite_nonsingular |]].
  exact (proj1 (times_vector_round_trip Qc 0%Qc 1%Qc Qcplus Qcmult Qcminus Qcopp Qcdiv Qc_eq_bool
                  Qcrt Qc_eq_bool_eq Qc_one_neq_zero Qc_div_mul_inv Qc_inv_mul_l sprite corner sprite_affine sprite_nonsingular)).
Defined.

Lemma scale_by_reciprocals_restores_at_sprite :
  (x shift <> 0%Qc /\ y shift <> 0%Qc /\ z shift <> 0%Qc)
  /\ referent (Matrix4f_scale (vinv 1%Qc Qcdiv shift)
                 (referent (Matrix4f_scale shift sprite))) = sprite.
Proof.
  split; [exact shift_nonzero |].
  exact (scale_by_reciprocals_restores Qc 0%Qc 1%Qc Qcplus Qcmult Qcminus Qcopp Qcdiv
           Qcrt Qc_one_neq_zero Qc_div_mul_inv Qc_inv_mul_l sprite shift
           (proj1 shift_nonzero) (proj1 (proj2 shift_nonzero))
           (proj2 (proj2 shift_nonzero))).
Defined.

(* ------------------------------------------------------------------ *)
(** ** The rotations over the real numbers

    What angle [rotateX], [rotateY] and [rotateZ] turn by is a question
    about [std::cos], [std::sin] and [fmod].  Here [float] and [double] are
    read as real numbers, [std::cos] and [std::sin] as the cosine and the
    sine, and [fmod] as the C standard defines it. *)
(* ------------------------------------------------------------------ *)

Section Matrix4_real.
Import Stdlib.Reals.Reals Stdlib.micromega.Lra Stdlib.Reals.Machin.
Local Open Scope R_scope.

(** A real number with its fractional part cut off. *)
Definition R_trunc (r : R) : Z :=
  if Rle_dec 0 r then Int_part r else (- Int_part (- r))%Z.

(** [fmod(x, y)] of [<cmath>]: [x - n * y], [n] being the quotient [x / y]
    with its fractional part cut off. *)
Definition R_fmod (x y : R) : R := x - IZR (R_trunc (x / y)) * y.

Definition R_emPI : R := emPI 1 Rplus Rmult Rdiv.
Definition R_radians : R -> R := radians 1 Rplus Rmult Rdiv R_fmod.
Definition R_default : Matrix4 R := Matrix4_default 0 1.
Definition R_product : Matrix4 R -> Matrix4 R -> Matrix4 R :=
  product 0 Rplus Rmult.
Definition R_rotateX : R -> method R reference :=
  rotateX 0 1 Rplus Rmult Ropp Rdiv cos sin R_fmod.
Definition R_rotateY : R -> method R reference :=
  rotateY 0 1 Rplus Rmult Ropp Rdiv cos sin R_fmod.
Definition R_rotateZ : R -> method R reference :=
  rotateZ 0 1 Rplus Rmult Ropp Rdiv cos sin R_fmod.

(** An angle given in degrees, in radians. *)
Definition degrees_to_radians (degrees : R) : R := degrees * PI / 180.

(** The standard rotation matrices by an angle given in degrees. *)
Definition standard_rotation_x (degrees : R) : Matrix4 R :=
  rotation_x 0 1 Ropp (cos (degrees_to_radians degrees))
             (sin (degrees_to_radians degrees)).

Definition standard_rotation_y (degrees : R) : Matrix4 R :=
  rotation_y 0 1 Ropp (cos (degrees_to_radians degrees))
             (sin (degrees_to_radians degrees)).

Definition standard_rotation_z (degrees : R) : Matrix4 R :=
  rotation_z 0 1 Ropp (cos (degrees_to_radians degrees))
             (sin (degrees_to_radians degrees)).

(** Two matrices no entry of which differs by more than [eps]. *)
Definition within (eps : R) (a b : Matrix4 R) : Prop :=
  forall i j, Rabs (get a i j - get b i j) <= eps.

(** *** The code's constant and its angle *)

Lemma literal_IZR (p : positive) : literal 1 Rplus Rmult p = IZR (Zpos p).
Proof.
  induction p as [q IH | q IH |]; cbn [literal]; rewrite ?IH.
  - rewrite Pos2Z.inj_xI, plus_IZR, mult_IZR. ring.
  - rewrite Pos2Z.inj_xO, mult_IZR. ring.
  - reflexivity.
Qed.

Lemma R_emPI_value : R_emPI = 3141592654 / 1000000000.
Proof. unfold R_emPI, emPI. now rewrite !literal_IZR. Qed.

Lemma R_radians_value (angle : R) :
  R_radians angle = R_fmod (angle * R_emPI / 180) (2 * R_emPI).
Proof. unfold R_radians, radians, R_emPI. now rewrite !literal_IZR. Qed.

Lemma R_trunc_near (r : R) : Rabs (r - IZR (R_trunc r)) < 1.
Proof.
  unfold R_trunc. destruct (Rle_dec 0 r) as [P | N].
  - destruct (base_Int_part r) as (L & U).
    apply Rabs_def1; lra.
  - destruct (base_Int_part (- r)) as (L & U).
    rewrite opp_IZR. apply Rabs_def1; lra.
Qed.

Lemma R_fmod_below (x y : R) : 0 < y -> Rabs (R_fmod x y) < y.
Proof.
  intros Y. unfold R_fmod.
  replace (x - IZR (R_trunc (x / y)) * y)
    with ((x / y - IZR (R_trunc (x / y))) * y) by (field; lra).
  rewrite Rabs_mult, (Rabs_pos_eq y) by lra.
  pose proof (Rmult_lt_compat_r y _ _ Y (R_trunc_near (x / y))). lra.
Qed.

Lemma R_trunc_toward_zero (r : R) :
  (0 <= r -> IZR (R_trunc r) <= r) /\ (r <= 0 -> r <= IZR (R_trunc r)).
Proof.
  unfold R_trunc. destruct (Rle_dec 0 r) as [P | N]; split; intros H.
  - apply (base_Int_part r).
  - assert (r = 0) by lra. subst r.
    destruct (base_Int_part 0) as (L & U).
    assert (Int_part 0 = 0%Z) as ->; [| lra].
    apply le_IZR in L. assert (- 1 < IZR (Int_part 0)) as U' by lra.
    apply lt_IZR in U'. lia.
  - lra.
  - destruct (base_Int_part (- r)) as (L & U). rewrite opp_IZR. lra.
Qed.

(** [fmod] gives a result with the sign of its first argument. *)
Lemma R_fmod_sign (x y : R) :
  0 < y ->
  (0 <= x -> 0 <= R_fmod x y) /\ (x <= 0 -> R_fmod x y <= 0).
Proof.
  intros Y. unfold R_fmod.
  replace (x - IZR (R_trunc (x / y)) * y)
    with ((x / y - IZR (R_trunc (x / y))) * y) by (field; lra).
  destruct (R_trunc_toward_zero (x / y)) as (P & N).
  split; intros H.
  - assert (0 <= x / y) as Q
      by (apply Rmult_le_pos; [lra | left; now apply Rinv_0_lt_compat]).
    specialize (P Q). nra.
  - assert (x / y <= 0) as Q.
    { replace (x / y) with (- ((- x) * / y)) by (field; lra).
      assert (0 <= - x * / y)
        by (apply Rmult_le_pos; [lra | left; now apply Rinv_0_lt_compat]).
      lra. }
    specialize (N Q). nra.
Qed.

(** Pi to nine decimals, from the arctangent series of 1/2, 1/3 and 1/7:
    it lies below the code's 3.141592654, by less than 5 / 10^10. *)
Lemma PI_above : 31415926535 / 10000000000 < PI.
Proof.
  destruct (PI_2_3_7_ineq 8) as [L _].
  unfold sum_f_R0, tg_alt, PI_2_3_7_tg, Ratan_seq in L.
  cbn [Nat.mul Nat.add pow INR] in L.
  lra.
Qed.

Lemma PI_below : PI < 3141592654 / 1000000000.
Proof.
  destruct (PI_2_3_7_ineq 8) as [_ U].
  unfold sum_f_R0, tg_alt, PI_2_3_7_tg, Ratan_seq in U.
  cbn [Nat.mul Nat.add pow INR] in U.
  lra.
Qed.

(** *** Cosine and sine: whole turns, and nearby angles *)

Lemma cos_turns (a : R) (k : Z) : cos (a - IZR k * (2 * PI)) = cos a.
Proof.
  destruct k as [| p | p].
  - f_equal. lra.
  - rewrite <- (cos_period (a - IZR (Zpos p) * (2 * PI)) (Pos.to_nat p)).
    f_equal. rewrite INR_IZR_INZ, positive_nat_Z. lra.
  - rewrite <- (cos_period a (Pos.to_nat p)).
    f_equal. rewrite INR_IZR_INZ, positive_nat_Z.
    change (Zneg p) with (- Zpos p)%Z. rewrite opp_IZR. lra.
Qed.

Lemma sin_turns (a : R) (k : Z) : sin (a - IZR k * (2 * PI)) = sin a.
Proof.
  destruct k as [| p | p].
  - f_equal. lra.
  - rewrite <- (sin_period (a - IZR (Zpos p) * (2 * PI)) (Pos.to_nat p)).
    f_equal. rewrite INR_IZR_INZ, positive_nat_Z. lra.
  - rewrite <- (sin_period a (Pos.to_nat p)).
    f_equal. rewrite INR_IZR_INZ, positive_nat_Z.
    change (Zneg p) with (- Zpos p)%Z. rewrite opp_IZR. lra.
Qed.

Lemma Rabs_sin_le (u : R) : Rabs (sin u) <= Rabs u.
Proof.
  assert (P : forall v, 0 < v -> Rabs (sin v) <= v).
  { intros v V. apply Rabs_le. split.
    - destruct (Rlt_le_dec v 1) as [S | B].
      + assert (0 < sin v) by (apply sin_gt_0; [lra | pose proof PI_above; lra]).
        lra.
      + pose proof (SIN_bound v). lra.
    - left. now apply sin_lt_x. }
  destruct (Rtotal_order u 0) as [N | [Z | V]].
  - rewrite <- (Rabs_Ropp (sin u)), <- sin_neg, (Rabs_left u) by exact N.
    apply P. lra.
  - subst u. rewrite sin_0, Rabs_R0. lra.
  - rewrite (Rabs_pos_eq u) by lra. now apply P.
Qed.

Lemma cos_close (p q : R) : Rabs (cos p - cos q) <= Rabs (p - q).
Proof.
  rewrite form2, !Rabs_mult.
  pose proof (Rabs_sin_le ((p - q) / 2)) as S.
  assert (Rabs (sin ((p + q) / 2)) <= 1) as B
    by (apply Rabs_le; pose proof (SIN_bound ((p + q) / 2)); lra).
  replace (Rabs (p - q)) with (2 * Rabs ((p - q) / 2)).
  2:{ unfold Rdiv. rewrite Rabs_mult, (Rabs_pos_eq (/ 2)) by lra. lra. }
  rewrite (Rabs_left (-2)) by lra.
  pose proof (Rabs_pos (sin ((p - q) / 2))).
  pose proof (Rabs_pos (sin ((p + q) / 2))).
  nra.
Qed.

Lemma sin_close (p q : R) : Rabs (sin p - sin q) <= Rabs (p - q).
Proof.
  rewrite form4, !Rabs_mult.
  pose proof (Rabs_sin_le ((p - q) / 2)) as S.
  assert (Rabs (cos ((p + q) / 2)) <= 1) as B
    by (apply Rabs_le; pose proof (COS_bound ((p + q) / 2)); lra).
  replace (Rabs (p - q)) with (2 * Rabs ((p - q) / 2)).
  2:{ unfold Rdiv. rewrite Rabs_mult, (Rabs_pos_eq (/ 2)) by lra. lra. }
  rewrite (Rabs_pos_eq 2) by lra.
  pose proof (Rabs_pos (sin ((p - q) / 2))).
  pose proof (Rabs_pos (cos ((p + q) / 2))).
  nra.
Qed.

(** *** The angle of the rotation *)

Lemma Rabs_bounds (a b : R) : Rabs a <= b -> - b <= a <= b.
Proof.
  intros H. unfold Rabs in H. destruct (Rcase_abs a); lra.
Qed.

(** The angle the code computes: the angle in degrees times 3.141592654 /
    180, less the whole turns of 2 * 3.141592654 that fit. *)
Lemma R_radians_turns (angle : R) :
  let P := 3141592654 / 1000000000 in
  let turns := R_trunc (angle * P / 180 / (2 * P)) in
  R_radians angle = angle * P / 180 - IZR turns * (2 * P)
  /\ Rabs (R_radians angle) < 2 * P
  /\ (0 <= angle -> 0 <= R_radians angle)
  /\ (angle <= 0 -> R_radians angle <= 0).
Proof.
  cbv zeta. rewrite R_radians_value, R_emPI_value.
  split; [reflexivity |].
  split; [apply R_fmod_below; lra |].
  destruct (R_fmod_sign (angle * (3141592654 / 1000000000) / 180)
              (2 * (3141592654 / 1000000000))) as (P & N); [lra |].
  split; intros H; [apply P | apply N]; lra.
Qed.

Lemma R_radians_near (angle : R) :
  let P := 3141592654 / 1000000000 in
  let turns := R_trunc (angle * P / 180 / (2 * P)) in
  Rabs (R_radians angle - (degrees_to_radians angle - IZR turns * (2 * PI)))
  <= 1 / 1000000000.
Proof.
  cbv zeta. destruct (R_radians_turns angle) as (V & B & _). cbv zeta in V, B.
  set (n := IZR (R_trunc (angle * (3141592654 / 1000000000) / 180
                          / (2 * (3141592654 / 1000000000))))) in *.
  set (rad := R_radians angle) in *.
  unfold degrees_to_radians.
  pose proof PI_above as L. pose proof PI_below as U.
  apply Rabs_def2 in B. destruct B as (B1 & B2).
  set (t := angle / 180 - 2 * n).
  assert (T : - 2 < t < 2) by (unfold t; lra).
  replace (rad - (angle * PI / 180 - n * (2 * PI)))
    with (t * (3141592654 / 1000000000 - PI)) by (unfold t; lra).
  apply Rabs_le. split; nra.
Qed.

Lemma R_rotation_near (angle : R) :
  let rad := R_radians angle in
  Rabs (cos rad - cos (degrees_to_radians angle)) <= 1 / 1000000000
  /\ Rabs (sin rad - sin (degrees_to_radians angle)) <= 1 / 1000000000.
Proof.
  cbv zeta. pose proof (R_radians_near angle) as N. cbv zeta in N.
  set (k := R_trunc _) in N.
  rewrite <- (cos_turns (degrees_to_radians angle) k),
    <- (sin_turns (degrees_to_radians angle) k).
  split.
  - eapply Rle_trans; [apply cos_close | exact N].
  - eapply Rle_trans; [apply sin_close | exact N].
Qed.


Lemma R_trunc_half : R_trunc (1 / 2) = 0%Z.
Proof.
  unfold R_trunc. destruct (Rle_dec 0 (1 / 2)) as [P | N]; [| lra].
  symmetry. apply Int_part_spec. simpl. lra.
Qed.

Lemma R_radians_half_turn : R_radians 180 = 3141592654 / 1000000000.
Proof.
  rewrite R_radians_value, R_emPI_value. unfold R_fmod.
  replace (180 * (3141592654 / 1000000000) / 180
           / (2 * (3141592654 / 1000000000))) with (1 / 2) by lra.
  rewrite R_trunc_half. lra.
Qed.

Lemma sin_emPI_negative : sin (3141592654 / 1000000000) < 0.
Proof.
  pose proof PI_above as L. pose proof PI_below as U.
  replace (3141592654 / 1000000000)
    with ((3141592654 / 1000000000 - PI) + PI) by lra.
  rewrite neg_sin.
  assert (0 < sin (3141592654 / 1000000000 - PI)) by (apply sin_gt_0; lra).
  lra.
Qed.


End Matrix4_real.

End em.

(* ================================================================== *)
(** * The widgets: [Button] and [DropdownList] *)
(* ================================================================== *)

Module gui.

Local Open Scope N_scope.

(** [sf::Vector2i]. *)
Record Vector2i : Type := mkVector2i { vx : Z; vy : Z }.

(** [sf::Color(red, green, blue)]. *)
Record Color : Type := mkColor { red : N; green : N; blue : N }.

(** [sf::Mouse::Button]. *)
Inductive MouseButton : Type := Left | Right | Middle | XButton1 | XButton2.

(** [sf::Event::EventType], with the kinds the widgets do not look at
    gathered under [OtherEvent]. *)
Inductive EventType : Type :=
| MouseButtonPressed | MouseButtonReleased | MouseMoved | OtherEvent.

(** [sf::Event]: its [type] and the [mouseButton.button] member. *)
Record Event : Type :=
  mkEvent { type : EventType; mouseButton_button : MouseButton }.

(** The answer of [sf::Mouse::isButtonPressed] for each button while one
    [update] runs. *)
Definition Mouse : Type := MouseButton -> bool.

Definition MouseButton_eqb (a b : MouseButton) : bool :=
  match a, b with
  | Left, Left | Right, Right | Middle, Middle
  | XButton1, XButton1 | XButton2, XButton2 => true
  | _, _ => false
  end.

Definition EventType_eqb (a b : EventType) : bool :=
  match a, b with
  | MouseButtonPressed, MouseButtonPressed
  | MouseButtonReleased, MouseButtonReleased
  | MouseMoved, MouseMoved
  | OtherEvent, OtherEvent => true
  | _, _ => false
  end.

(** An [unsigned short]: arithmetic wraps at 2^16. *)
Definition USHRT_MAX : N := 65535.
Definition ushort (n : N) : N := n mod (USHRT_MAX + 1).

Section Widgets.

(** [sf::RectangleShape] with the three members the widgets call:
    [getGlobalBounds().contains(x, y)], [setFillColor], [getFillColor]. *)
Variable RectangleShape : Type.
Variable contains : RectangleShape -> Z -> Z -> bool.
Variable setFillColor : Color -> RectangleShape -> RectangleShape.
Variable getFillColor : RectangleShape -> Color.

(** The enumerators of [Button::state], declared in [Button.h], as the
    values [m_state] holds. *)
Variables IDLE HOVER ACTIVE LOCKED : N.
Hypothesis state_enumerators_distinct : NoDup [IDLE; HOVER; ACTIVE; LOCKED].

(** ** [class Button]: the shape of the [Object] base and [m_state]. *)
Record Button : Type := mkButton { m_shape : RectangleShape; m_state : N }.

Definition set_state (new_state : N) (b : Button) : Button :=
  mkButton (m_shape b) new_state.

Definition set_shape (shape : RectangleShape) (b : Button) : Button :=
  mkButton shape (m_state b).

(** [const unsigned short Button::getState() const] *)
Definition getState (b : Button) : N := m_state b.

(** [void Button::setState(const unsigned short new_state)] *)
Definition setState (new_state : N) (b : Button) : Button :=
  set_state new_state b.

(** [bool Button::isPressed() const] *)
Definition isPressed (b : Button) : bool := m_state b =? ACTIVE.

(** [void Button::lockButton()] *)
Definition lockButton (b : Button) : Button := set_state LOCKED b.

(** [void Button::unlockButton()] *)
Definition unlockButton (b : Button) : Button := set_state IDLE b.

(** [void Button::update(sf::Vector2i mousePos, sf::Event &event)] *)
Definition Button_update (mouse : Mouse) (mousePos : Vector2i) (event : Event)
    (b : Button) : Button :=
  if negb (m_state b =? LOCKED) then
    let b :=
      if contains (m_shape b) (vx mousePos) (vy mousePos) then
        let b := set_state HOVER b in
        if mouse Left then set_state ACTIVE b else b
      else
        set_state IDLE b in
    if m_state b =? IDLE then
      set_shape (setFillColor (mkColor 200 200 200) (m_shape b)) b
    else if m_state b =? HOVER then
      set_shape (setFillColor (mkColor 100 100 100) (m_shape b)) b
    else
      set_shape (setFillColor (mkColor 100 200 100) (m_shape b)) b
  else b.

(** ** [class TextButton]

    A [Button] with a label, declared in [TextButton.h] and defined in
    [TextButton.cpp].  [DropdownList.cpp] uses the [Button] members it
    inherits, its [update], its label, and its constructor; they are taken
    as they come. *)
Variable TextButton : Type.
(** [sf::String]. *)
Variable Label : Type.
(** The [Button] subobject: [m_shape] and [m_state]. *)
Variable as_Button : TextButton -> Button.
Variable TextButton_update :
  Mouse -> Vector2i -> Event -> TextButton -> TextButton.
Variable getLabel : TextButton -> Label.
Variable setLabel : Label -> TextButton -> TextButton.
(** [TextButton(sf::Vector2f(0.f, 0.f), m_shape.getSize(), m_font, label)],
    size and font being those of the first argument. *)
Variable TextButton_like : TextButton -> Label -> TextButton.

(** The layout arithmetic on [float] coordinates.
    [background_below shape]: the rectangle of half the height of [shape],
    placed right below it (both constructors).
    [place_choice background shape last new_choice]: [new_choice] after
    [setPosition], [setSize] and [setOutlineThickness(0.f)], set below the
    last choice, or at the top of the background when there is none.
    [fit_background background shape last]: the background resized to
    reach the choice appended last. *)
Variable background_below : RectangleShape -> RectangleShape.
Variable place_choice :
  RectangleShape -> RectangleShape -> option TextButton -> TextButton ->
  TextButton.
Variable fit_background :
  RectangleShape -> RectangleShape -> TextButton -> RectangleShape.

(** The enumerators of [DropdownList::DropStatus], declared in
    [DropdownList.h]. *)
Variables HIDDEN DROPPED : N.

(** ** [class DropdownList : public TextButton] *)
Record DropdownList : Type := mkDropdownList {
  base : TextButton;
  m_background : RectangleShape;
  m_dropStatus : N;
  m_currentChoice : N;
  m_choices : list TextButton;
  m_isChanged : bool
}.

Definition set_base (v : TextButton) (d : DropdownList) : DropdownList :=
  mkDropdownList v (m_background d) (m_dropStatus d) (m_currentChoice d)
                 (m_choices d) (m_isChanged d).

Definition set_background (v : RectangleShape) (d : DropdownList) :=
  mkDropdownList (base d) v (m_dropStatus d) (m_currentChoice d)
                 (m_choices d) (m_isChanged d).

Definition set_dropStatus (v : N) (d : DropdownList) : DropdownList :=
  mkDropdownList (base d) (m_background d) v (m_currentChoice d)
                 (m_choices d) (m_isChanged d).

Definition set_currentChoice (v : N) (d : DropdownList) : DropdownList :=
  mkDropdownList (base d) (m_background d) (m_dropStatus d) v
                 (m_choices d) (m_isChanged d).

Definition set_choices (v : list TextButton) (d : DropdownList) :=
  mkDropdownList (base d) (m_background d) (m_dropStatus d)
                 (m_currentChoice d) v (m_isChanged d).

Definition set_isChanged (v : bool) (d : DropdownList) : DropdownList :=
  mkDropdownList (base d) (m_background d) (m_dropStatus d)
                 (m_currentChoice d) (m_choices d) v.

(** [DropdownList::DropdownList()] and
    [DropdownList::DropdownList(pos, size, font, label)], from the
    [TextButton] base the initialiser list constructs first. *)
Definition DropdownList_new (text_button : TextButton) : DropdownList :=
  let background := background_below (m_shape (as_Button text_button)) in
  let background := setFillColor (mkColor 210 210 210) background in
  mkDropdownList text_button background HIDDEN 0 [] false.

(** [void DropdownList::addChoice(std::unique_ptr<TextButton> new_choice)] *)
Definition addChoice (new_choice : TextButton) (d : DropdownList)
    : DropdownList :=
  let shape := m_shape (as_Button (base d)) in
  let new_choice :=
    place_choice (m_background d) shape (last (map Some (m_choices d)) None)
                 new_choice in
  let d := set_choices (m_choices d ++ [new_choice]) d in
  set_background (fit_background (m_background d) shape new_choice) d.

(** [void DropdownList::addChoice(const sf::String &label)] *)
Definition addChoice_label (label : Label) (d : DropdownList) : DropdownList :=
  addChoice (TextButton_like (base d) label) d.

(** [void DropdownList::operator+=(std::unique_ptr<TextButton> new_choice)] *)
Definition operator_add_assign (new_choice : TextButton) (d : DropdownList) :=
  addChoice new_choice d.

(** [void DropdownList::changeRead()] *)
Definition changeRead (d : DropdownList) : DropdownList :=
  set_isChanged false d.

(** [const bool DropdownList::isChanged() const] *)
Definition isChanged (d : DropdownList) : bool := m_isChanged d.

(** [const unsigned short &DropdownList::getDropStatus() const] *)
Definition getDropStatus (d : DropdownList) : N := m_dropStatus d.

(** [const unsigned short &DropdownList::getCurrentChoice() const] *)
Definition getCurrentChoice (d : DropdownList) : N := m_currentChoice d.

(** [bool DropdownList::isDropped() const] *)
Definition isDropped (d : DropdownList) : bool := m_dropStatus d =? DROPPED.

(** [void DropdownList::setBackgroundColor(const sf::Color &new_color)] *)
Definition setBackgroundColor (new_color : Color) (d : DropdownList) :=
  set_background (setFillColor new_color (m_background d)) d.

(** The range-for of [DropdownList::update] over [m_choices], entered with
    the counter at [count]: the choices after their own [update], and the
    list after the body ran for each of them. *)
Fixpoint for_each_choice (mouse : Mouse) (mousePos : Vector2i) (event : Event)
    (count : N) (choices : list TextButton) (d : DropdownList)
    : list TextButton * DropdownList :=
  match choices with
  | [] => ([], d)
  | it :: rest =>
      let it := TextButton_update mouse mousePos event it in
      let d :=
        if isPressed (as_Button it) then
          let d := set_dropStatus HIDDEN d in
          let d := set_currentChoice count d in
          let d := set_isChanged true d in
          set_base (setLabel (getLabel it) (base d)) d
        else d in
      let count := ushort (count + 1) in
      let (rest, d) := for_each_choice mouse mousePos event count rest d in
      (it :: rest, d)
  end.

(** [void DropdownList::update(sf::Vector2i mousePos, sf::Event &event)] *)
Definition DropdownList_update (mouse : Mouse) (mousePos : Vector2i)
    (event : Event) (d : DropdownList) : DropdownList :=
  let d := set_base (TextButton_update mouse mousePos event (base d)) d in
  let d :=
    if m_dropStatus d =? DROPPED then
      let count := 1 in
      let (choices, d) :=
        for_each_choice mouse mousePos event count (m_choices d) d in
      set_choices choices d
    else d in
  if negb (m_state (as_Button (base d)) =? LOCKED) then
    if contains (m_shape (as_Button (base d))) (vx mousePos) (vy mousePos)
       && EventType_eqb (type event) MouseButtonReleased
       && MouseButton_eqb (mouseButton_button event) Left
    then
      if m_dropStatus d =? HIDDEN then set_dropStatus DROPPED d
      else set_dropStatus HIDDEN d
    else d
  else d.

(** *** Histories of a list

    Every member function of [DropdownList.cpp] that changes the object,
    and [inherited f] for a member function of the bases, which acts on the
    [TextButton] subobject alone. *)
Inductive call : Type :=
| call_addChoice (new_choice : TextButton)
| call_addChoice_label (label : Label)
| call_operator_add_assign (new_choice : TextButton)
| call_changeRead
| call_setBackgroundColor (new_color : Color)
| call_update (mouse : Mouse) (mousePos : Vector2i) (event : Event)
| call_inherited (f : TextButton -> TextButton).

Definition step (d : DropdownList) (c : call) : DropdownList :=
  match c with
  | call_addChoice new_choice => addChoice new_choice d
  | call_addChoice_label label => addChoice_label label d
  | call_operator_add_assign new_choice => operator_add_assign new_choice d
  | call_changeRead => changeRead d
  | call_setBackgroundColor new_color => setBackgroundColor new_color d
  | call_update mouse mousePos event =>
      DropdownList_update mouse mousePos event d
  | call_inherited f => set_base (f (base d)) d
  end.

Definition run (calls : list call) (d : DropdownList) : DropdownList :=
  fold_left step calls d.

(** How many choices a history adds. *)
Definition adds_choice (c : call) : bool :=
  match c with
  | call_addChoice _ | call_addChoice_label _ | call_operator_add_assign _ =>
      true
  | _ => false
  end.

Definition added (calls : list call) : nat :=
  length (filter adds_choice calls).

(** The position, counted from [from], of the last choice of the list that
    reports [isPressed()] once its [update] ran. *)
Fixpoint pressed_choice (mouse : Mouse) (mousePos : Vector2i) (event : Event)
    (from : N) (choices : list TextButton) : option N :=
  match choices with
  | [] => None
  | it :: rest =>
      match pressed_choice mouse mousePos event (from + 1) rest with
      | Some k => Some k
      | None =>
          if isPressed (as_Button (TextButton_update mouse mousePos event it))
          then Some from else None
      end
  end.

(** The selection one call makes: an [update] of a dropped list in which a
    choice is pressed selects that choice, by its 1-based position. *)
Definition selects (d : DropdownList) (c : call) : option N :=
  match c with
  | call_update mouse mousePos event =>
      if isDropped d then pressed_choice mouse mousePos event 1 (m_choices d)
      else None
  | _ => None
  end.

(** The most recent selection of a history that starts in [d], [earlier]
    being the one made before it. *)
Fixpoint selection (calls : list call) (d : DropdownList) (earlier : option N)
    : option N :=
  match calls with
  | [] => earlier
  | c :: rest =>
      selection rest (step d c)
        (match selects d c with Some k => Some k | None => earlier end)
  end.

(** The choices a run of [addChoice] calls appends, and the background
    it leaves, given the background and the last choice it starts from. *)
Fixpoint append_all (shape : RectangleShape) (news : list TextButton)
    (background : RectangleShape) (back : option TextButton)
    : list TextButton * RectangleShape :=
  match news with
  | [] => ([], background)
  | c :: rest =>
      let c := place_choice background shape back c in
      let background := fit_background background shape c in
      let (cs, background) := append_all shape rest background (Some c) in
      (c :: cs, background)
  end.

(** What [getCurrentChoice()] holds for a selection: nothing selected is 0,
    a selected position is stored in an [unsigned short]. *)
Definition stored (sel : option N) : N :=
  match sel with None => 0 | Some k => ushort k end.

(** What a history keeps true of the list [d] it has reached and of the
    selection [sel] made so far. *)
Definition tracks (d : DropdownList) (sel : option N) : Prop :=
  m_currentChoice d = stored sel
  /\ forall k, sel = Some k -> 1 <= k /\ k <= N.of_nat (length (m_choices d)).

(** What one call of [update] is given: the mouse buttons held, the
    mouse position and the event polled. *)
Definition frame : Type := (Mouse * Vector2i * Event)%type.

(** [Button::update] called once per frame, frame after frame. *)
Definition Button_updates (frames : list frame) (b : Button) : Button :=
  fold_left (fun b f =>
               let '(mouse, mousePos, event) := f in
               Button_update mouse mousePos event b)
            frames b.

(** The last choice of the list that reports [isPressed()] once its
    [update] ran, as it is after that [update]. *)
Fixpoint pressed_last (mouse : Mouse) (mousePos : Vector2i) (event : Event)
    (choices : list TextButton) : option TextButton :=
  match choices with
  | [] => None
  | it :: rest =>
      match pressed_last mouse mousePos event rest with
      | Some t => Some t
      | None =>
          let it := TextButton_update mouse mousePos event it in
          if isPressed (as_Button it) then Some it else None
      end
  end.

(** Whether a history that starts in [d] ends with a selection no
    [changeRead()] has followed, [earlier] saying so for what came before
    it. *)
Fixpoint unread (calls : list call) (d : DropdownList) (earlier : bool)
    : bool :=
  match calls with
  | [] => earlier
  | c :: rest =>
      unread rest (step d c)
        (match c with
         | call_changeRead => false
         | _ => match selects d c with Some _ => true | None => earlier end
         end)
  end.

(** The release of the left button over the main button, which
    [DropdownList::update] looks for. *)
Definition clicked (shape : RectangleShape) (mousePos : Vector2i)
    (event : Event) : bool :=
  contains shape (vx mousePos) (vy mousePos)
  && EventType_eqb (type event) MouseButtonReleased
  && MouseButton_eqb (mouseButton_button event) Left.

(** The last statement of [DropdownList::update]: a click on the main
    button of a list that is not locked drops a hidden list and hides a
    dropped one. *)
Definition toggle (mousePos : Vector2i) (event : Event) (d : DropdownList)
    : DropdownList :=
  if negb (m_state (as_Button (base d)) =? LOCKED) then
    if clicked (m_shape (as_Button (base d))) mousePos event then
      if m_dropStatus d =? HIDDEN then set_dropStatus DROPPED d
      else set_dropStatus HIDDEN d
    else d
  else d.

(** ** [Button::update] *)

Lemma enumerators_apart :
  IDLE <> HOVER /\ IDLE <> ACTIVE /\ IDLE <> LOCKED
  /\ HOVER <> ACTIVE /\ HOVER <> LOCKED /\ ACTIVE <> LOCKED.
Proof.
  pose proof state_enumerators_distinct as D.
  inversion_clear D as [| ? ? N1 D1].
  inversion_clear D1 as [| ? ? N2 D2].
  inversion_clear D2 as [| ? ? N3 _].
  cbn in N1, N2, N3. intuition congruence.
Qed.

Ltac enumerators :=
  destruct enumerators_apart as (IH & IA & IL & HA & HL & AL).

Ltac decide_states :=
  repeat match goal with
         | |- context [?a =? ?b] =>
             destruct (N.eqb_spec a b); try congruence
         | H : context [?a =? ?b] |- _ =>
             destruct (N.eqb_spec a b); try congruence
         end.

Lemma Button_update_locked mouse mousePos event (b : Button) :
  m_state b = LOCKED -> Button_update mouse mousePos event b = b.
Proof.
  intros H. unfold Button_update. rewrite H, N.eqb_refl. reflexivity.
Qed.

Lemma Button_update_state mouse mousePos event (b : Button) :
  m_state b <> LOCKED ->
  m_state (Button_update mouse mousePos event b) =
  if contains (m_shape b) (vx mousePos) (vy mousePos)
  then if mouse Left then ACTIVE else HOVER
  else IDLE.
Proof.
  intros H. unfold Button_update.
  destruct (N.eqb_spec (m_state b) LOCKED) as [E | _]; [now elim H |].
  cbn [negb].
  destruct (contains _ _ _), (mouse Left); cbn;
    repeat match goal with
           | |- context [if ?c then _ else _] => destruct c
           end; reflexivity.
Qed.

(** C9.  [Button::update]: from the LOCKED state, neither the state nor the
    fill colour of the shape changes; from any other state, the state
    becomes ACTIVE when the mouse position lies within the bounds of the
    shape and the left mouse button is pressed, HOVER when it lies within
    them and the button is not pressed, IDLE otherwise.  So [update] never
    makes a button that was not locked LOCKED, and [isPressed()] is then true
    exactly when the position was within the bounds with the button pressed
    (a locked button stays not pressed). *)
Theorem Button_update_transition (mouse : Mouse) (mousePos : Vector2i)
    (event : Event) (b : Button) :
  let within := contains (m_shape b) (vx mousePos) (vy mousePos) in
  let pressed := mouse Left in
  let b' := Button_update mouse mousePos event b in
  (m_state b = LOCKED ->
     m_state b' = LOCKED
     /\ getFillColor (m_shape b') = getFillColor (m_shape b)
     /\ isPressed b' = false)
  /\ (m_state b <> LOCKED ->
     (within = true -> pressed = true -> m_state b' = ACTIVE)
     /\ (within = true -> pressed = false -> m_state b' = HOVER)
     /\ (within = false -> m_state b' = IDLE)
     /\ m_state b' <> LOCKED
     /\ (isPressed b' = true <-> within = true /\ pressed = true)).
Proof.
  cbv zeta. enumerators. split; intros H.
  - rewrite (Button_update_locked mouse mousePos event b H).
    repeat split; try assumption.
    unfold isPressed. rewrite H. apply N.eqb_neq. congruence.
  - unfold isPressed.
    rewrite (Button_update_state mouse mousePos event b H).
    destruct (contains _ _ _), (mouse Left);
      (split; [| split; [| split; [| split; [| split]]]]);
      try (intros; first [discriminate | reflexivity | congruence]).
    all: first
      [ intros _; apply N.eqb_refl
      | intros _; split; reflexivity
      | intros E; apply N.eqb_eq in E; congruence
      | intros (E1 & E2); discriminate ].
Qed.

(** ** [DropdownList]: the current choice *)

Lemma ushort_succ (n : N) : ushort (ushort n + 1) = ushort (n + 1).
Proof.
  unfold ushort.
  rewrite <- (N.Div0.add_mod_idemp_l n 1). reflexivity.
Qed.

Lemma ushort_le (n : N) : ushort n <= n.
Proof. unfold ushort. apply N.Div0.mod_le. Qed.

Lemma ushort_small (n : N) : n <= USHRT_MAX -> ushort n = n.
Proof. intros H. unfold ushort, USHRT_MAX in *. apply N.mod_small. lia. Qed.

Lemma for_each_choice_currentChoice mouse mousePos event choices :
  forall (n : N) (d : DropdownList),
    m_currentChoice
      (snd (for_each_choice mouse mousePos event (ushort n) choices d))
    = match pressed_choice mouse mousePos event n choices with
      | Some k => ushort k
      | None => m_currentChoice d
      end.
Proof.
  induction choices as [| it rest IH]; intros n d; cbn -[ushort].
  - reflexivity.
  - rewrite ushort_succ.
    destruct (for_each_choice mouse mousePos event (ushort (n + 1)) rest _)
      as [rest' d'] eqn:E.
    cbn [snd]. replace d' with (snd (rest', d')) by reflexivity.
    rewrite <- E, IH.
    destruct (pressed_choice mouse mousePos event (n + 1) rest);
      [reflexivity |].
    destruct (isPressed _); reflexivity.
Qed.

Lemma for_each_choice_length mouse mousePos event choices :
  forall (count : N) (d : DropdownList),
    length (fst (for_each_choice mouse mousePos event count choices d))
    = length choices.
Proof.
  induction choices as [| it rest IH]; intros count d; cbn -[ushort].
  - reflexivity.
  - specialize (IH (ushort (count + 1))
      (if isPressed (as_Button (TextButton_update mouse mousePos event it))
       then set_base (setLabel (getLabel (TextButton_update mouse mousePos event it))
                        (base (set_isChanged true (set_currentChoice count
                                 (set_dropStatus HIDDEN d)))))
              (set_isChanged true (set_currentChoice count
                 (set_dropStatus HIDDEN d)))
       else d)).
    destruct (for_each_choice _ _ _ _ rest _) as [rest' d'].
    cbn in *. now rewrite IH.
Qed.

Lemma pressed_choice_bounds mouse mousePos event choices :
  forall (from k : N),
    pressed_choice mouse mousePos event from choices = Some k ->
    from <= k /\ k < from + N.of_nat (length choices).
Proof.
  induction choices as [| it rest IH]; intros from k; cbn [pressed_choice].
  - discriminate.
  - cbn [length]. rewrite Nat2N.inj_succ.
    destruct (pressed_choice mouse mousePos event (from + 1) rest) as [j |] eqn:E.
    + intros [= <-]. apply IH in E. lia.
    + destruct (isPressed _); [| discriminate].
      intros [= <-]. lia.
Qed.

Lemma update_currentChoice mouse mousePos event (d : DropdownList) :
  m_currentChoice (DropdownList_update mouse mousePos event d)
  = match selects d (call_update mouse mousePos event) with
    | Some k => ushort k
    | None => m_currentChoice d
    end.
Proof.
  unfold DropdownList_update, selects, isDropped.
  set (d1 := set_base _ d).
  assert (forall e : DropdownList,
            m_currentChoice
              (if negb (m_state (as_Button (base e)) =? LOCKED)
               then if contains (m_shape (as_Button (base e)))
                         (vx mousePos) (vy mousePos)
                       && EventType_eqb (type event) MouseButtonReleased
                       && MouseButton_eqb (mouseButton_button event) Left
                    then if m_dropStatus e =? HIDDEN
                         then set_dropStatus DROPPED e
                         else set_dropStatus HIDDEN e
                    else e
               else e) = m_currentChoice e) as Toggle.
  { intros e.
    destruct (negb _); [| reflexivity].
    destruct (_ && _); [| reflexivity].
    destruct (_ =? _); reflexivity. }
  rewrite Toggle. clear Toggle.
  change (m_dropStatus d1) with (m_dropStatus d).
  change (m_choices d1) with (m_choices d).
  destruct (m_dropStatus d =? DROPPED); [| reflexivity].
  pose proof (for_each_choice_currentChoice mouse mousePos event
                (m_choices d) 1 d1) as L.
  change (ushort 1) with 1 in L.
  destruct (for_each_choice mouse mousePos event 1 (m_choices d) d1)
    as [choices' d'].
  cbn [snd] in L. cbn [m_currentChoice set_choices]. exact L.
Qed.

Lemma update_choices_length mouse mousePos event (d : DropdownList) :
  length (m_choices (DropdownList_update mouse mousePos event d))
  = length (m_choices d).
Proof.
  unfold DropdownList_update.
  set (d1 := set_base _ d).
  assert (forall e : DropdownList,
            m_choices
              (if negb (m_state (as_Button (base e)) =? LOCKED)
               then if contains (m_shape (as_Button (base e)))
                         (vx mousePos) (vy mousePos)
                       && EventType_eqb (type event) MouseButtonReleased
                       && MouseButton_eqb (mouseButton_button event) Left
                    then if m_dropStatus e =? HIDDEN
                         then set_dropStatus DROPPED e
                         else set_dropStatus HIDDEN e
                    else e
               else e) = m_choices e) as Toggle.
  { intros e.
    destruct (negb _); [| reflexivity].
    destruct (_ && _); [| reflexivity].
    destruct (_ =? _); reflexivity. }
  rewrite Toggle. clear Toggle.
  change (m_dropStatus d1) with (m_dropStatus d).
  change (m_choices d1) with (m_choices d).
  destruct (m_dropStatus d =? DROPPED); [| reflexivity].
  pose proof (for_each_choice_length mouse mousePos event (m_choices d) 1 d1)
    as L.
  destruct (for_each_choice mouse mousePos event 1 (m_choices d) d1)
    as [choices' d'].
  exact L.
Qed.

Lemma step_currentChoice (d : DropdownList) (c : call) :
  m_currentChoice (step d c)
  = match selects d c with
    | Some k => ushort k
    | None => m_currentChoice d
    end.
Proof.
  destruct c; try reflexivity. apply update_currentChoice.
Qed.

Lemma step_choices_length (d : DropdownList) (c : call) :
  length (m_choices (step d c))
  = (length (m_choices d) + if adds_choice c then 1 else 0)%nat.
Proof.
  destruct c; cbn [step adds_choice];
    try (unfold addChoice_label, operator_add_assign, addChoice;
         cbn [m_choices set_background set_choices];
         rewrite length_app; reflexivity);
    try (cbn; lia).
  rewrite update_choices_length. lia.
Qed.

Lemma selects_bounds (d : DropdownList) (c : call) (k : N) :
  selects d c = Some k ->
  1 <= k /\ k <= N.of_nat (length (m_choices d)).
Proof.
  destruct c; try discriminate. unfold selects.
  destruct (isDropped d); [| discriminate].
  intros H. apply pressed_choice_bounds in H. lia.
Qed.

Lemma step_tracks (d : DropdownList) (c : call) (sel : option N) :
  tracks d sel ->
  tracks (step d c)
         (match selects d c with Some k => Some k | None => sel end).
Proof.
  intros (Hcur & Hsel). split.
  - rewrite step_currentChoice. destruct (selects d c); [reflexivity | exact Hcur].
  - intros k Hk. rewrite step_choices_length.
    assert (1 <= k /\ k <= N.of_nat (length (m_choices d))) as B.
    { destruct (selects d c) as [j |] eqn:E.
      - injection Hk as <-. now apply selects_bounds in E.
      - now apply Hsel. }
    destruct (adds_choice c); lia.
Qed.

Lemma run_tracks (calls : list call) :
  forall (d : DropdownList) (sel : option N),
    tracks d sel -> tracks (run calls d) (selection calls d sel).
Proof.
  induction calls as [| c rest IH]; intros d sel H; cbn [run fold_left selection].
  - exact H.
  - apply IH. now apply step_tracks.
Qed.

Lemma run_choices_length (calls : list call) :
  forall d : DropdownList,
    length (m_choices (run calls d))
    = (length (m_choices d) + added calls)%nat.
Proof.
  unfold added.
  induction calls as [| c rest IH]; intros d; cbn [run fold_left filter].
  - cbn. lia.
  - unfold run in IH. rewrite IH, step_choices_length.
    destruct (adds_choice c); cbn [length]; lia.
Qed.

Lemma new_tracks (text_button : TextButton) :
  tracks (DropdownList_new text_button) None.
Proof. split; [reflexivity | discriminate]. Qed.

Lemma currentChoice_stored (text_button : TextButton) (calls : list call) :
  let d0 := DropdownList_new text_button in
  let d := run calls d0 in
  getCurrentChoice d = stored (selection calls d0 None)
  /\ length (m_choices d) = added calls
  /\ getCurrentChoice d <= N.of_nat (added calls)
  /\ (forall k, selection calls d0 None = Some k ->
        1 <= k /\ k <= N.of_nat (added calls)).
Proof.
  cbv zeta.
  destruct (run_tracks calls _ _ (new_tracks text_button)) as (Hcur & Hsel).
  pose proof (run_choices_length calls (DropdownList_new text_button)) as L.
  cbn [DropdownList_new m_choices length Nat.add] in L.
  rewrite L in Hsel.
  repeat split; try assumption; try (now apply Hsel).
  unfold getCurrentChoice. rewrite Hcur.
  destruct (selection _ _ _) as [k |]; cbn [stored]; [| lia].
  pose proof (ushort_le k). destruct (Hsel k eq_refl). lia.
Qed.

(** C10, as the code keeps it.  [m_currentChoice] is 0 until some choice
    has been selected and afterwards holds the 1-based index of the most
    recently pressed choice of the list modulo 65536, the index being kept in
    an [unsigned short]; whatever the number of choices, [getCurrentChoice()]
    never exceeds the number of choices added.  So long as at most 65535
    choices were added, it is that index itself, and the value 0 identifies
    the state in which nothing was selected yet. *)
Theorem currentChoice_is_latest_selection (text_button : TextButton)
    (calls : list call) :
  let d0 := DropdownList_new text_button in
  let d := run calls d0 in
  getCurrentChoice d0 = 0
  /\ (selection calls d0 None = None -> getCurrentChoice d = 0)
  /\ (forall k, selection calls d0 None = Some k ->
        getCurrentChoice d = k mod 65536
        /\ 1 <= k /\ k <= N.of_nat (added calls))
  /\ getCurrentChoice d <= N.of_nat (added calls)
  /\ (N.of_nat (added calls) <= USHRT_MAX ->
      getCurrentChoice d =
        match selection calls d0 None with None => 0 | Some k => k end
      /\ (getCurrentChoice d = 0 <-> selection calls d0 None = None)).
Proof.
  cbv zeta.
  destruct (currentChoice_stored text_button calls) as (Hcur & _ & Hle & Hsel).
  cbv zeta in Hcur, Hle, Hsel.
  set (d := run calls (DropdownList_new text_button)) in *.
  split; [reflexivity |].
  split; [intros S; rewrite Hcur, S; reflexivity |].
  split; [intros k S; rewrite Hcur, S; split; [reflexivity | now apply Hsel] |].
  split; [exact Hle |].
  intros Hmax.
  destruct (selection calls (DropdownList_new text_button) None)
    as [k |] eqn:S; cbn [stored] in Hcur.
  - destruct (Hsel k eq_refl) as (Hk1 & Hk2).
    rewrite ushort_small in Hcur by lia.
    split; [exact Hcur | split].
    + intros Z0. lia.
    + discriminate.
  - split; [exact Hcur | split; intros; [reflexivity | exact Hcur]].
Qed.

(** *** Runs of [addChoice] *)

Lemma run_app (calls1 calls2 : list call) (d : DropdownList) :
  run (calls1 ++ calls2) d = run calls2 (run calls1 d).
Proof. unfold run. apply fold_left_app. Qed.

Lemma selection_app (calls1 calls2 : list call) :
  forall (d : DropdownList) (sel : option N),
    selection (calls1 ++ calls2) d sel
    = selection calls2 (run calls1 d) (selection calls1 d sel).
Proof.
  induction calls1 as [| c rest IH]; intros d sel; cbn [app selection].
  - reflexivity.
  - now rewrite IH.
Qed.

Lemma selection_addChoice_label (labels : list Label) :
  forall (d : DropdownList) (sel : option N),
    selection (map call_addChoice_label labels) d sel = sel.
Proof.
  induction labels as [| l rest IH]; intros d sel; cbn [map selection selects].
  - reflexivity.
  - apply IH.
Qed.

Lemma last_appended (l : list TextButton) (c : TextButton) :
  last (map Some (l ++ [c])) None = Some c.
Proof. rewrite map_app. cbn [map]. apply last_last. Qed.

Lemma run_addChoice_label (labels : list Label) :
  forall d : DropdownList,
    run (map call_addChoice_label labels) d
    = let (cs, background) :=
        append_all (m_shape (as_Button (base d)))
                   (map (TextButton_like (base d)) labels)
                   (m_background d) (last (map Some (m_choices d)) None) in
      set_background background (set_choices (m_choices d ++ cs) d).
Proof.
  induction labels as [| l rest IH]; intros d.
  - cbn. rewrite app_nil_r. destruct d; reflexivity.
  - cbn [map run fold_left step]. fold (run (map call_addChoice_label rest)).
    rewrite IH. clear IH.
    unfold addChoice_label, addChoice.
    cbn [base set_background set_choices m_background m_choices append_all].
    rewrite last_appended.
    destruct (append_all _ _ _ _) as [cs background].
    unfold set_background, set_choices. cbn.
    now rewrite <- app_assoc.
Qed.

Lemma run_addChoice_label_fields (labels : list Label) (d : DropdownList) :
  let d' := run (map call_addChoice_label labels) d in
  base d' = base d
  /\ m_dropStatus d' = m_dropStatus d
  /\ m_currentChoice d' = m_currentChoice d
  /\ m_choices d' =
       m_choices d ++
       fst (append_all (m_shape (as_Button (base d)))
              (map (TextButton_like (base d)) labels)
              (m_background d) (last (map Some (m_choices d)) None)).
Proof.
  cbv zeta. rewrite run_addChoice_label.
  destruct (append_all _ _ _ _) as [cs background].
  repeat split.
Qed.

(** *** One [update] at a time *)

Lemma pressed_choice_last mouse mousePos event (c : TextButton) :
  isPressed (as_Button (TextButton_update mouse mousePos event c)) = true ->
  forall (l : list TextButton) (from : N),
    pressed_choice mouse mousePos event from (l ++ [c])
    = Some (from + N.of_nat (length l)).
Proof.
  intros P l. induction l as [| it rest IH]; intros from.
  - cbn [app pressed_choice length]. rewrite P. f_equal. cbn. lia.
  - cbn [app pressed_choice length]. rewrite IH. f_equal.
    rewrite Nat2N.inj_succ. lia.
Qed.

Lemma update_hidden_list mouse mousePos event (d : DropdownList) :
  let t := TextButton_update mouse mousePos event (base d) in
  (m_dropStatus d =? DROPPED) = false ->
  (m_state (as_Button t) =? LOCKED) = false ->
  contains (m_shape (as_Button t)) (vx mousePos) (vy mousePos)
  && EventType_eqb (type event) MouseButtonReleased
  && MouseButton_eqb (mouseButton_button event) Left = true ->
  DropdownList_update mouse mousePos event d
  = (if m_dropStatus d =? HIDDEN then set_dropStatus DROPPED (set_base t d)
     else set_dropStatus HIDDEN (set_base t d)).
Proof.
  cbv zeta. intros Hidden Unlocked Click. unfold DropdownList_update.
  cbn [m_dropStatus set_base]. rewrite Hidden.
  cbn [base set_base]. rewrite Unlocked, Click. reflexivity.
Qed.

(** *** Buttons over many frames *)

Lemma Button_update_unlocked mouse mousePos event (b : Button) :
  m_state b <> LOCKED ->
  Button_update mouse mousePos event b
  = let state :=
      if contains (m_shape b) (vx mousePos) (vy mousePos)
      then if mouse Left then ACTIVE else HOVER
      else IDLE in
    mkButton
      (setFillColor
         (if state =? IDLE then mkColor 200 200 200
          else if state =? HOVER then mkColor 100 100 100
          else mkColor 100 200 100)
         (m_shape b))
      state.
Proof.
  intros H. unfold Button_update.
  destruct (N.eqb_spec (m_state b) LOCKED) as [E | _]; [now elim H |].
  cbn [negb].
  destruct (contains _ _ _), (mouse Left); cbn;
    repeat match goal with
           | |- context [if ?c then _ else _] => destruct c
           end; reflexivity.
Qed.

Lemma Button_updates_locked (frames : list frame) (b : Button) :
  m_state b = LOCKED -> Button_updates frames b = b.
Proof.
  intros H. unfold Button_updates.
  induction frames as [| [[mouse mousePos] event] rest IH]; cbn [fold_left].
  - reflexivity.
  - rewrite Button_update_locked by exact H. exact IH.
Qed.

Lemma Button_updates_unlocked (frames : list frame) :
  forall b : Button,
    m_state b <> LOCKED -> m_state (Button_updates frames b) <> LOCKED.
Proof.
  enumerators. unfold Button_updates.
  induction frames as [| [[mouse mousePos] event] rest Hrest]; intros b H;
    cbn [fold_left].
  - exact H.
  - apply Hrest. rewrite Button_update_state by exact H.
    destruct (contains _ _ _), (mouse Left); congruence.
Qed.

(** Only [lockButton] locks and only [unlockButton] unlocks: whatever the
    frames, a button is locked after its updates exactly if it was before
    them; a locked button comes out of them unchanged and not pressed, and
    [unlockButton] leaves it idle. *)
Theorem Button_lock_outlasts_updates (frames : list frame) (b : Button) :
  (m_state (Button_updates frames b) = LOCKED <-> m_state b = LOCKED)
  /\ Button_updates frames (lockButton b) = lockButton b
  /\ isPressed (Button_updates frames (lockButton b)) = false
  /\ m_state (unlockButton (lockButton b)) = IDLE
  /\ m_state (Button_updates frames (unlockButton b)) <> LOCKED.
Proof.
  enumerators.
  assert (L : Button_updates frames (lockButton b) = lockButton b)
    by now apply Button_updates_locked.
  split; [| split; [exact L | split; [| split]]].
  - split.
    + intros H. destruct (N.eq_dec (m_state b) LOCKED) as [E | E]; [exact E |].
      now elim (Button_updates_unlocked frames b E).
    + intros H. now rewrite Button_updates_locked.
  - rewrite L. unfold isPressed, lockButton. cbn. apply N.eqb_neq. congruence.
  - reflexivity.
  - apply Button_updates_unlocked. cbn. congruence.
Qed.

(** What the toolkit promises of a shape: its fill colour is the one set
    last, and the fill colour plays no part in the bounds. *)
Hypothesis getFillColor_setFillColor :
  forall c shape, getFillColor (setFillColor c shape) = c.
Hypothesis contains_setFillColor :
  forall c shape px py,
    contains (setFillColor c shape) px py = contains shape px py.

(** After [update], the fill colour of a button that is not locked tells
    its state: (200,200,200) idle, (100,100,100) hovered, (100,200,100)
    active.  The state it had before plays no part in the one it gets, and
    a second [update] in the same frame changes nothing of the state. *)
Theorem Button_update_colours_state (mouse : Mouse) (mousePos : Vector2i)
    (event : Event) (b : Button) :
  m_state b <> LOCKED ->
  let b' := Button_update mouse mousePos event b in
  (m_state b' = IDLE -> getFillColor (m_shape b') = mkColor 200 200 200)
  /\ (m_state b' = HOVER -> getFillColor (m_shape b') = mkColor 100 100 100)
  /\ (m_state b' = ACTIVE -> getFillColor (m_shape b') = mkColor 100 200 100)
  /\ (m_state b' = IDLE \/ m_state b' = HOVER \/ m_state b' = ACTIVE)
  /\ (forall before : N,
        before <> LOCKED ->
        m_state (Button_update mouse mousePos event (set_state before b))
        = m_state b')
  /\ m_state (Button_update mouse mousePos event b') = m_state b'.
Proof.
  intros H. cbv zeta. enumerators.
  assert (U : m_state (Button_update mouse mousePos event b) <> LOCKED).
  { rewrite Button_update_state by exact H.
    destruct (contains _ _ _), (mouse Left); congruence. }
  rewrite (Button_update_state mouse mousePos event (Button_update _ _ _ b) U).
  rewrite (Button_update_unlocked mouse mousePos event b H).
  cbv zeta. cbn [m_state m_shape].
  rewrite contains_setFillColor, !getFillColor_setFillColor.
  repeat split.
  - intros ->. now rewrite N.eqb_refl.
  - intros ->. rewrite N.eqb_refl.
    destruct (N.eqb_spec HOVER IDLE); congruence.
  - intros ->.
    destruct (N.eqb_spec ACTIVE IDLE), (N.eqb_spec ACTIVE HOVER); congruence.
  - destruct (contains _ _ _), (mouse Left); auto.
  - intros before B. now rewrite Button_update_state by exact B.
Qed.

(** *** One [update] of a list, field by field *)

Lemma toggle_fields mousePos event (d : DropdownList) :
  base (toggle mousePos event d) = base d
  /\ m_background (toggle mousePos event d) = m_background d
  /\ m_currentChoice (toggle mousePos event d) = m_currentChoice d
  /\ m_choices (toggle mousePos event d) = m_choices d
  /\ m_isChanged (toggle mousePos event d) = m_isChanged d.
Proof.
  unfold toggle.
  destruct (negb _); [| repeat split].
  destruct (clicked _ _ _); [| repeat split].
  destruct (_ =? _); repeat split.
Qed.

Lemma DropdownList_update_unfold mouse mousePos event (d : DropdownList) :
  DropdownList_update mouse mousePos event d
  = toggle mousePos event
      (let d := set_base (TextButton_update mouse mousePos event (base d)) d in
       if m_dropStatus d =? DROPPED then
         let (choices, d) :=
           for_each_choice mouse mousePos event 1 (m_choices d) d in
         set_choices choices d
       else d).
Proof. reflexivity. Qed.

Lemma for_each_choice_effect mouse mousePos event choices :
  forall (from count : N) (d : DropdownList),
    let r := for_each_choice mouse mousePos event count choices d in
    fst r = map (TextButton_update mouse mousePos event) choices
    /\ m_choices (snd r) = m_choices d
    /\ m_background (snd r) = m_background d
    /\ match pressed_last mouse mousePos event choices with
       | Some it =>
           pressed_choice mouse mousePos event from choices <> None
           /\ m_isChanged (snd r) = true
           /\ m_dropStatus (snd r) = HIDDEN
           /\ exists t, base (snd r) = setLabel (getLabel it) t
       | None =>
           pressed_choice mouse mousePos event from choices = None
           /\ snd r = d
       end.
Proof.
  induction choices as [| it rest IH]; intros from count d.
  - cbn. repeat split.
  - cbn -[ushort] in *.
    set (it' := TextButton_update mouse mousePos event it) in *.
    set (d1 := if isPressed (as_Button it') then _ else d).
    specialize (IH (from + 1) (ushort (count + 1)) d1).
    destruct (for_each_choice mouse mousePos event _ rest d1) as [rest' d'].
    cbn [fst snd] in *.
    destruct IH as (Hmap & Hchoices & Hbackground & Hlast).
    assert (m_choices d1 = m_choices d /\ m_background d1 = m_background d)
      as (C1 & B1) by (subst d1; destruct (isPressed _); split; reflexivity).
    split; [now rewrite Hmap |].
    split; [congruence |]. split; [congruence |].
    destruct (pressed_last mouse mousePos event rest) as [t |].
    + destruct Hlast as (Hpressed & Hrest).
      split; [| exact Hrest].
      destruct (pressed_choice mouse mousePos event (from + 1) rest);
        [discriminate | now elim Hpressed].
    + destruct Hlast as (-> & ->). subst d1.
      destruct (isPressed (as_Button it')).
      * split; [discriminate |]. cbn. repeat split. now eexists.
      * split; reflexivity.
Qed.

Lemma DropdownList_update_choices mouse mousePos event (d : DropdownList) :
  m_choices (DropdownList_update mouse mousePos event d)
  = if isDropped d
    then map (TextButton_update mouse mousePos event) (m_choices d)
    else m_choices d.
Proof.
  rewrite DropdownList_update_unfold.
  destruct (toggle_fields mousePos event
              (let d := set_base (TextButton_update mouse mousePos event
                                    (base d)) d in
               if m_dropStatus d =? DROPPED then
                 let (choices, d) :=
                   for_each_choice mouse mousePos event 1 (m_choices d) d in
                 set_choices choices d
               else d)) as (_ & _ & _ & -> & _).
  cbv zeta. unfold isDropped. cbn [m_dropStatus set_base m_choices].
  destruct (m_dropStatus d =? DROPPED); [| reflexivity].
  destruct (for_each_choice_effect mouse mousePos event (m_choices d) 1 1
              (set_base (TextButton_update mouse mousePos event (base d)) d))
    as (Hmap & _).
  destruct (for_each_choice _ _ _ _ _ _) as [choices' d'].
  exact Hmap.
Qed.

Lemma DropdownList_update_isChanged mouse mousePos event (d : DropdownList) :
  m_isChanged (DropdownList_update mouse mousePos event d)
  = match selects d (call_update mouse mousePos event) with
    | Some _ => true
    | None => m_isChanged d
    end.
Proof.
  rewrite DropdownList_update_unfold.
  destruct (toggle_fields mousePos event
              (let d := set_base (TextButton_update mouse mousePos event
                                    (base d)) d in
               if m_dropStatus d =? DROPPED then
                 let (choices, d) :=
                   for_each_choice mouse mousePos event 1 (m_choices d) d in
                 set_choices choices d
               else d)) as (_ & _ & _ & _ & ->).
  cbv zeta. unfold selects, isDropped. cbn [m_dropStatus set_base m_choices].
  destruct (m_dropStatus d =? DROPPED); [| reflexivity].
  destruct (for_each_choice_effect mouse mousePos event (m_choices d) 1 1
              (set_base (TextButton_update mouse mousePos event (base d)) d))
    as (_ & _ & _ & Hlast).
  destruct (for_each_choice _ _ _ _ _ _) as [choices' d'].
  cbn [snd] in Hlast. cbn [m_isChanged set_choices].
  destruct (pressed_last mouse mousePos event (m_choices d)) as [it |].
  - destruct Hlast as (Hpressed & Hchanged & _).
    destruct (pressed_choice mouse mousePos event 1 (m_choices d));
      [exact Hchanged | now elim Hpressed].
  - destruct Hlast as (-> & ->). reflexivity.
Qed.

(** While the list is dropped, [update] runs the [update] of every choice
    once, in the order of the list; while it is hidden, it leaves the
    choices, the current choice and the change flag as they are, and the
    list drops exactly when its button, not locked after its own [update],
    has the left button released over it. *)
Theorem DropdownList_update_reaches_choices_only_when_dropped
    (mouse : Mouse) (mousePos : Vector2i) (event : Event) (d : DropdownList) :
  let d' := DropdownList_update mouse mousePos event d in
  let t := TextButton_update mouse mousePos event (base d) in
  (isDropped d = true ->
     m_choices d' = map (TextButton_update mouse mousePos event) (m_choices d))
  /\ (isDropped d = false ->
      m_choices d' = m_choices d
      /\ m_currentChoice d' = m_currentChoice d
      /\ m_isChanged d' = m_isChanged d
      /\ base d' = t
      /\ (m_dropStatus d = HIDDEN ->
          m_dropStatus d'
          = if negb (m_state (as_Button t) =? LOCKED)
               && clicked (m_shape (as_Button t)) mousePos event
            then DROPPED else HIDDEN)).
Proof.
  cbv zeta. split; intros H.
  - now rewrite DropdownList_update_choices, H.
  - split; [now rewrite DropdownList_update_choices, H |].
    split; [rewrite update_currentChoice; unfold selects; now rewrite H |].
    split; [rewrite DropdownList_update_isChanged; unfold selects;
            now rewrite H |].
    rewrite DropdownList_update_unfold. cbv zeta.
    unfold isDropped in H. cbn [m_dropStatus set_base]. rewrite H.
    split; [apply toggle_fields |].
    intros Hidden. unfold toggle. cbn [base set_base m_dropStatus].
    rewrite Hidden, N.eqb_refl.
    destruct (negb _); cbn [andb]; [| exact Hidden].
    destruct (clicked _ _ _); [reflexivity | exact Hidden].
Qed.

(** [isChanged()] says whether a selection was made that no
    [changeRead()] has followed: selections set the flag, [changeRead()]
    alone clears it. *)
Theorem isChanged_is_unread_selection (text_button : TextButton)
    (calls : list call) :
  isChanged (run calls (DropdownList_new text_button))
  = unread calls (DropdownList_new text_button) false
  /\ isChanged (DropdownList_new text_button) = false
  /\ isChanged (changeRead (run calls (DropdownList_new text_button))) = false.
Proof.
  split; [| split; reflexivity].
  unfold isChanged.
  assert (forall (d : DropdownList) (earlier : bool),
            m_isChanged d = earlier ->
            m_isChanged (run calls d) = unread calls d earlier) as G.
  { induction calls as [| c rest IH]; intros d earlier E;
      cbn [run fold_left unread].
    - exact E.
    - apply IH. destruct c; cbn [step selects]; try exact E;
        try reflexivity.
      rewrite DropdownList_update_isChanged. cbn [selects].
      destruct (if isDropped d then _ else _); [reflexivity | exact E]. }
  now apply G.
Qed.

(** The drop status is always one of the two enumerators, and the number
    of choices is the number of [addChoice] calls made: [update] and the
    other member functions neither add nor remove a choice. *)
Theorem dropStatus_is_HIDDEN_or_DROPPED (text_button : TextButton)
    (calls : list call) :
  let d := run calls (DropdownList_new text_button) in
  (m_dropStatus d = HIDDEN \/ m_dropStatus d = DROPPED)
  /\ length (m_choices d) = added calls.
Proof.
  cbv zeta. split.
  - assert (forall d : DropdownList,
              m_dropStatus d = HIDDEN \/ m_dropStatus d = DROPPED ->
              m_dropStatus (run calls d) = HIDDEN
              \/ m_dropStatus (run calls d) = DROPPED) as G.
    { induction calls as [| c rest IH]; intros d E; cbn [run fold_left].
      - exact E.
      - apply IH. destruct c; cbn [step]; try exact E.
        rewrite DropdownList_update_unfold. cbv zeta.
        cbn [m_dropStatus set_base m_choices].
        set (d1 := set_base _ d).
        assert (forall e : DropdownList,
                  m_dropStatus e = HIDDEN \/ m_dropStatus e = DROPPED ->
                  m_dropStatus (toggle mousePos event e) = HIDDEN
                  \/ m_dropStatus (toggle mousePos event e) = DROPPED) as Tg.
        { intros e Ee. unfold toggle.
          destruct (negb _); [| exact Ee].
          destruct (clicked _ _ _); [| exact Ee].
          destruct (_ =? _); cbn; auto. }
        apply Tg.
        destruct (m_dropStatus d =? DROPPED); [| exact E].
        destruct (for_each_choice_effect mouse mousePos event (m_choices d)
                    1 1 d1) as (_ & _ & _ & Hlast).
        destruct (for_each_choice _ _ _ _ _ _) as [choices' d'].
        cbn [snd] in Hlast. cbn [m_dropStatus set_choices].
        destruct (pressed_last mouse mousePos event (m_choices d)).
        + destruct Hlast as (_ & _ & -> & _). now left.
        + destruct Hlast as (_ & ->). exact E. }
    apply G. now left.
  - apply (run_choices_length calls (DropdownList_new text_button)).
Qed.

(** What the toolkit promises of a label: it is the one set last. *)
Hypothesis getLabel_setLabel :
  forall label t, getLabel (setLabel label t) = label.

(** A selection shows on the list: when a choice of a dropped list is
    pressed, the list takes the label of the last pressed choice, raises
    the change flag and hides, unless the same [update] sees its button
    clicked, which drops it again. *)
Theorem selection_takes_label_and_hides (mouse : Mouse)
    (mousePos : Vector2i) (event : Event) (d : DropdownList)
    (it : TextButton) :
  isDropped d = true ->
  pressed_last mouse mousePos event (m_choices d) = Some it ->
  let d' := DropdownList_update mouse mousePos event d in
  getLabel (base d') = getLabel it
  /\ isPressed (as_Button it) = true
  /\ isChanged d' = true
  /\ m_dropStatus d'
     = if negb (m_state (as_Button (base d')) =? LOCKED)
          && clicked (m_shape (as_Button (base d'))) mousePos event
       then DROPPED else HIDDEN.
Proof.
  intros Hdropped Hlast'. cbv zeta.
  assert (P : isPressed (as_Button it) = true).
  { clear Hdropped. revert Hlast'.
    induction (m_choices d) as [| c rest IH]; cbn [pressed_last]; cbv zeta.
    - intros K. discriminate K.
    - destruct (pressed_last mouse mousePos event rest); [exact IH |].
      destruct (isPressed
                  (as_Button (TextButton_update mouse mousePos event c)))
        eqn:E; intros K; [| discriminate K].
      now injection K as <-. }
  rewrite DropdownList_update_unfold. cbv zeta.
  unfold isDropped in Hdropped. cbn [m_dropStatus set_base m_choices].
  rewrite Hdropped.
  destruct (for_each_choice_effect mouse mousePos event (m_choices d) 1 1
              (set_base (TextButton_update mouse mousePos event (base d)) d))
    as (_ & _ & _ & Hlast).
  rewrite Hlast' in Hlast.
  destruct (for_each_choice _ _ _ _ _ _) as [choices' d'].
  cbn [snd] in Hlast. destruct Hlast as (_ & Hchanged & Hstatus & t & Hbase).
  set (e := set_choices choices' d').
  destruct (toggle_fields mousePos event e) as (Eb & _ & _ & _ & Ec).
  unfold isChanged. rewrite Eb, Ec.
  assert (base e = base d') as -> by reflexivity.
  split; [rewrite Hbase; apply getLabel_setLabel |].
  split; [exact P |]. split; [exact Hchanged |].
  unfold toggle.
  assert (base e = base d') as -> by reflexivity.
  assert (m_dropStatus e = HIDDEN) as -> by exact Hstatus.
  rewrite N.eqb_refl.
  destruct (negb _); [| exact Hstatus].
  destruct (clicked _ _ _); [reflexivity | exact Hstatus].
Qed.

End Widgets.

Arguments mkButton {RectangleShape}.
Arguments m_shape {RectangleShape}.
Arguments m_state {RectangleShape}.
Arguments Button_update {RectangleShape}.
Arguments isPressed {RectangleShape}.
Arguments lockButton {RectangleShape}.
Arguments base {RectangleShape TextButton}.
Arguments m_currentChoice {RectangleShape TextButton}.
Arguments m_choices {RectangleShape TextButton}.
Arguments m_dropStatus {RectangleShape TextButton}.
Arguments m_isChanged {RectangleShape TextButton}.
Arguments getCurrentChoice {RectangleShape TextButton}.
Arguments isChanged {RectangleShape TextButton}.
Arguments DropdownList_new {RectangleShape} _ {TextButton}.
Arguments DropdownList_update {RectangleShape} _ _ _ {TextButton Label}.
Arguments run {RectangleShape} _ _ _ _ {TextButton Label}.
Arguments selection {RectangleShape} _ _ _ _ {TextButton Label}.
Arguments added {TextButton Label}.
Arguments append_all {RectangleShape TextButton}.
Arguments isDropped {RectangleShape TextButton}.
Arguments set_dropStatus {RectangleShape TextButton}.
Arguments set_base {RectangleShape TextButton}.
Arguments pressed_choice {RectangleShape} _ {TextButton}.
Arguments unlockButton {RectangleShape}.
Arguments set_state {RectangleShape}.
Arguments Button_updates {RectangleShape}.
Arguments pressed_last {RectangleShape} _ {TextButton}.
Arguments clicked {RectangleShape}.

(* ------------------------------------------------------------------ *)
(** ** The widgets on a toolkit of integer rectangles

    Coordinates are whole pixels, a label is a number, the enumerators are
    numbered in the order [Button.cpp] and [DropdownList.cpp] name them, and
    a [TextButton] updates as the [Button] it is. *)
(* ------------------------------------------------------------------ *)

Record Rect : Type := mkRect {
  rect_left : Z; rect_top : Z; rect_width : Z; rect_height : Z;
  rect_fill : Color
}.

Definition Rect_contains (r : Rect) (px py : Z) : bool :=
  ((rect_left r <=? px) && (px <? rect_left r + rect_width r)
   && (rect_top r <=? py) && (py <? rect_top r + rect_height r))%Z.

Definition Rect_setFillColor (c : Color) (r : Rect) : Rect :=
  mkRect (rect_left r) (rect_top r) (rect_width r) (rect_height r) c.

Definition Rect_place (r : Rect) (left top width height : Z) : Rect :=
  mkRect left top width height (rect_fill r).

Definition demo_Button : Type := Button Rect.
Definition demo_TextButton : Type := (demo_Button * N)%type.
Definition demo_DropdownList : Type := DropdownList Rect demo_TextButton.
Definition demo_call : Type := call demo_TextButton N.

Definition demo_as_Button (t : demo_TextButton) : demo_Button := fst t.
Definition demo_getLabel (t : demo_TextButton) : N := snd t.

Definition demo_Button_update
    : Mouse -> Vector2i -> Event -> demo_Button -> demo_Button :=
  Button_update Rect_contains Rect_setFillColor 0 1 2 3.

Definition demo_TextButton_update (mouse : Mouse) (mousePos : Vector2i)
    (event : Event) (t : demo_TextButton) : demo_TextButton :=
  (demo_Button_update mouse mousePos event (fst t), snd t).

Definition demo_setLabel (label : N) (t : demo_TextButton) : demo_TextButton :=
  (fst t, label).

Definition demo_TextButton_like (t : demo_TextButton) (label : N)
    : demo_TextButton :=
  let shape := m_shape (fst t) in
  (mkButton (Rect_place shape 0 0 (rect_width shape) (rect_height shape)) 0,
   label).

Definition demo_background_below (shape : Rect) : Rect :=
  Rect_place shape (rect_left shape) (rect_top shape + rect_height shape)%Z
             (rect_width shape) (rect_height shape / 2)%Z.

Definition demo_place_choice (background shape : Rect)
    (last : option demo_TextButton) (new_choice : demo_TextButton)
    : demo_TextButton :=
  let left := match last with
              | None => rect_left background
              | Some t => rect_left (m_shape (fst t))
              end in
  let top := match last with
             | None => rect_top background + 3
             | Some t =>
                 rect_top (m_shape (fst t)) + rect_height (m_shape (fst t)) + 1
             end%Z in
  (mkButton (Rect_place (m_shape (fst new_choice)) left top
               (rect_width shape) (rect_height shape * 10 / 14)%Z)
            (m_state (fst new_choice)),
   snd new_choice).

Definition demo_fit_background (background shape : Rect)
    (last : demo_TextButton) : Rect :=
  Rect_place background (rect_left background) (rect_top background)
             (rect_width shape)
             (rect_top (m_shape (fst last)) - rect_top background)%Z.

Definition demo_new : demo_TextButton -> demo_DropdownList :=
  DropdownList_new Rect_setFillColor demo_as_Button demo_background_below 0.

Definition demo_run : list demo_call -> demo_DropdownList -> demo_DropdownList :=
  run Rect_contains Rect_setFillColor 2 3 demo_as_Button
      demo_TextButton_update demo_getLabel demo_setLabel
      demo_TextButton_like demo_place_choice demo_fit_background 0 1.

Definition demo_selection
    : list demo_call -> demo_DropdownList -> option N -> option N :=
  selection Rect_contains Rect_setFillColor 2 3 demo_as_Button
      demo_TextButton_update demo_getLabel demo_setLabel
      demo_TextButton_like demo_place_choice demo_fit_background 0 1.

Definition grey : Color := mkColor 200 200 200.

(** A button of 100 x 28 pixels at the origin, labelled 0. *)
Definition menu_button : demo_TextButton :=
  (mkButton (mkRect 0 0 100 28 grey) 0, 0).

Definition no_button_down : Mouse := fun _ => false.
Definition left_button_down : Mouse := fun b => MouseButton_eqb b Left.

Definition left_released : Event := mkEvent MouseButtonReleased Left.
Definition moved : Event := mkEvent MouseMoved Left.

(** Release the left button over the main button: the list drops. *)
Definition open_list : demo_call :=
  call_update demo_TextButton N no_button_down (mkVector2i 5 5) left_released.

(** Hold the left button down over the choice at 1-based position [k]:
    choices are 20 pixels high, one pixel apart, from 3 pixels below the
    main button and its 14 pixel background strip. *)
Definition press_choice (k : Z) : demo_call :=
  call_update demo_TextButton N left_button_down
    (mkVector2i 5 (28 + 3 + (k - 1) * 21 + 10)%Z) moved.

(** The labels [from], [from + 1], ..., [n] of them. *)
Fixpoint labels (from : N) (n : nat) : list N :=
  match n with
  | O => []
  | S n' => from :: labels (from + 1) n'
  end.

Definition add_labels (n : N) : list demo_call :=
  map (call_addChoice_label demo_TextButton N) (labels 1 (N.to_nat n)).

(** The choice [addChoice] lays out with its top edge at [top]. *)
Definition stacked (top : Z) (label : N) : demo_TextButton :=
  (mkButton (mkRect 0 top 100 20 grey) 0, label).

(** [n] choices stacked from [top] downward, labelled from [from]. *)
Fixpoint stack (top : Z) (from : N) (n : nat) : list demo_TextButton :=
  match n with
  | O => []
  | S n' => stacked top from :: stack (top + 21) (from + 1) n'
  end.

(** Three choices, the list opened, the second choice pressed. *)
Definition pick_second : list demo_call :=
  add_labels 3 ++ [open_list; press_choice 2].

(** 65536 choices, the list opened, the last choice pressed. *)
Definition pick_last_of_65536 : list demo_call :=
  add_labels 65536 ++ [open_list; press_choice 65536].

Lemma demo_enumerators_distinct : NoDup [0; 1; 2; 3].
Proof.
  repeat constructor; cbn; intuition discriminate.
Qed.

Example pick_second_selects :
  demo_selection pick_second (demo_new menu_button) None = Some 2.
Proof. vm_compute. reflexivity. Qed.

Example pick_second_label :
  demo_getLabel (base (demo_run pick_second (demo_new menu_button))) = 2
  /\ isChanged (demo_run pick_second (demo_new menu_button)) = true
  /\ m_dropStatus (demo_run pick_second (demo_new menu_button)) = 0.
Proof. vm_compute. repeat split. Qed.

Example locked_button_ignores_press :
  demo_Button_update left_button_down (mkVector2i 5 5) moved
    (lockButton 3 (fst menu_button))
  = lockButton 3 (fst menu_button).
Proof. reflexivity. Qed.

(** *** The theorems on this toolkit *)

Lemma Button_update_transition_at_menu_button :
  let b' := demo_Button_update left_button_down (mkVector2i 5 5) moved
              (fst menu_button) in
  m_state (fst menu_button) <> 3
  /\ m_state b' = 2
  /\ isPressed 2 b' = true.
Proof.
  cbv zeta.
  assert (m_state (fst menu_button) <> 3) as Unlocked by discriminate.
  destruct (Button_update_transition Rect Rect_contains Rect_setFillColor
              rect_fill 0 1 2 3 demo_enumerators_distinct
              left_button_down (mkVector2i 5 5) moved (fst menu_button))
    as (_ & Free).
  destruct (Free Unlocked) as (Active & _ & _ & _ & Pressed).
  split; [exact Unlocked | split].
  - apply Active; reflexivity.
  - apply Pressed. split; reflexivity.
Defined.

Lemma currentChoice_is_latest_selection_at_pick_second :
  N.of_nat (added pick_second) <= USHRT_MAX
  /\ getCurrentChoice (demo_run pick_second (demo_new menu_button)) = 2.
Proof.
  assert (N.of_nat (added pick_second) <= USHRT_MAX) as Few
    by (apply N.leb_le; vm_compute; reflexivity).
  split; [exact Few |].
  destruct (currentChoice_is_latest_selection Rect Rect_contains
              Rect_setFillColor 2 3 demo_TextButton N demo_as_Button
              demo_TextButton_update demo_getLabel demo_setLabel
              demo_TextButton_like
              demo_background_below demo_place_choice demo_fit_background
              0 1 menu_button pick_second)
    as (_ & _ & _ & _ & Bounded).
  destruct (Bounded Few) as (Latest & _).
  pose proof pick_second_selects as Second.
  unfold demo_selection, demo_new in Second.
  unfold demo_run, demo_new.
  rewrite Second in Latest. exact Latest.
Defined.

(** A press over the button followed by a release: two frames. *)
Definition press_then_release : list frame :=
  [(left_button_down, mkVector2i 5 5, moved);
   (no_button_down, mkVector2i 5 5, left_released)].

(** Three choices and the list opened. *)
Definition three_choices_dropped : demo_DropdownList :=
  demo_run (add_labels 3 ++ [open_list]) (demo_new menu_button).

(** The second of the three choices, held down. *)
Definition second_choice_pressed : demo_TextButton :=
  (mkButton (mkRect 0 52 100 20 (mkColor 100 200 100)) 2, 2).

Lemma Rect_getFillColor_setFillColor (c : Color) (shape : Rect) :
  rect_fill (Rect_setFillColor c shape) = c.
Proof. reflexivity. Qed.

Lemma Rect_contains_setFillColor (c : Color) (shape : Rect) (px py : Z) :
  Rect_contains (Rect_setFillColor c shape) px py = Rect_contains shape px py.
Proof. reflexivity. Qed.

Lemma demo_getLabel_setLabel (label : N) (t : demo_TextButton) :
  demo_getLabel (demo_setLabel label t) = label.
Proof. reflexivity. Qed.

Example press_then_release_hovers :
  m_state (Button_updates Rect_contains Rect_setFillColor 0 1 2 3
             press_then_release (fst menu_button)) = 1.
Proof. reflexivity. Qed.

Lemma Button_lock_outlasts_updates_at_menu_button :
  let locked := lockButton 3 (fst menu_button) in
  NoDup [0; 1; 2; 3]
  /\ Button_updates Rect_contains Rect_setFillColor 0 1 2 3
       press_then_release locked = locked
  /\ isPressed 2 (Button_updates Rect_contains Rect_setFillColor 0 1 2 3
                    press_then_release locked) = false
  /\ m_state (Button_updates Rect_contains Rect_setFillColor 0 1 2 3
                press_then_release (unlockButton 0 (fst menu_button))) <> 3.
Proof.
  cbv zeta.
  destruct (Button_lock_outlasts_updates Rect Rect_contains Rect_setFillColor
              0 1 2 3 demo_enumerators_distinct press_then_release
              (fst menu_button))
    as (_ & Stays & Unpressed & _ & Free).
  split; [exact demo_enumerators_distinct |].
  split; [exact Stays | split; [exact Unpressed | exact Free]].
Defined.

Lemma Button_update_colours_state_at_menu_button :
  let b' := demo_Button_update left_button_down (mkVector2i 5 5) moved
              (fst menu_button) in
  m_state (fst menu_button) <> 3
  /\ m_state b' = 2
  /\ rect_fill (m_shape b') = mkColor 100 200 100
  /\ m_state (demo_Button_update left_button_down (mkVector2i 5 5) moved b')
     = m_state b'.
Proof.
  cbv zeta.
  assert (m_state (fst menu_button) <> 3) as Unlocked by discriminate.
  destruct (Button_update_colours_state Rect Rect_contains Rect_setFillColor
              rect_fill 0 1 2 3 demo_enumerators_distinct
              Rect_getFillColor_setFillColor Rect_contains_setFillColor
              left_button_down (mkVector2i 5 5) moved (fst menu_button)
              Unlocked)
    as (_ & _ & Green & _ & _ & Again).
  split; [exact Unlocked | split; [reflexivity |]].
  split; [apply Green; reflexivity | exact Again].
Defined.

Lemma selection_takes_label_and_hides_at_second_choice :
  let d' := DropdownList_update Rect_contains 2 3 demo_as_Button
              demo_TextButton_update demo_getLabel demo_setLabel 0 1
              left_button_down (mkVector2i 5 62) moved
              three_choices_dropped in
  isDropped 1 three_choices_dropped = true
  /\ pressed_last 2 demo_as_Button demo_TextButton_update
       left_button_down (mkVector2i 5 62) moved
       (m_choices three_choices_dropped)
     = Some second_choice_pressed
  /\ demo_getLabel (base d') = 2
  /\ isChanged d' = true.
Proof.
  cbv zeta.
  assert (isDropped 1 three_choices_dropped = true) as Dropped
    by (vm_compute; reflexivity).
  assert (pressed_last 2 demo_as_Button demo_TextButton_update
            left_button_down (mkVector2i 5 62) moved
            (m_choices three_choices_dropped)
          = Some second_choice_pressed) as Pressed
    by (vm_compute; reflexivity).
  destruct (selection_takes_label_and_hides Rect Rect_contains 2 3
              demo_TextButton N demo_as_Button demo_TextButton_update
              demo_getLabel demo_setLabel 0 1 demo_getLabel_setLabel
              left_button_down (mkVector2i 5 62) moved
              three_choices_dropped second_choice_pressed Dropped Pressed)
    as (Label & _ & Changed & _).
  split; [exact Dropped | split; [exact Pressed |]].
  split; [exact Label | exact Changed].
Defined.

(** *** A list of 65536 choices *)

Lemma stack_length (n : nat) :
  forall (top : Z) (from : N), length (stack top from n) = n.
Proof.
  induction n as [| n IH]; intros top from; cbn [stack length].
  - reflexivity.
  - now rewrite IH.
Qed.

Lemma stack_snoc (n : nat) :
  forall (top : Z) (from : N),
    stack top from (S n)
    = stack top from n ++ [stacked (top + 21 * Z.of_nat n) (from + N.of_nat n)].
Proof.
  induction n as [| n IH]; intros top from.
  - cbn. now rewrite Z.add_0_r, N.add_0_r.
  - change (stack top from (S (S n)))
      with (stacked top from :: stack (top + 21) (from + 1) (S n)).
    rewrite IH. cbn [stack app].
    replace (top + 21 + 21 * Z.of_nat n)%Z
      with (top + 21 * Z.of_nat (S n))%Z by lia.
    replace (from + 1 + N.of_nat n) with (from + N.of_nat (S n)) by lia.
    reflexivity.
Qed.

(** [addChoice] stacks what it appends: each choice 21 pixels below the one
    before. *)
Lemma append_all_stacks (n : nat) :
  forall (from : N) (background : Rect) (top : Z) (label : N),
    fst (append_all demo_place_choice demo_fit_background
           (mkRect 0 0 100 28 grey)
           (map (demo_TextButton_like menu_button) (labels from n))
           background (Some (stacked top label)))
    = stack (top + 21) from n.
Proof.
  induction n as [| n IH]; intros from background top label.
  - reflexivity.
  - cbn [labels map append_all].
    change (demo_place_choice background (mkRect 0 0 100 28 grey)
              (Some (stacked top label))
              (demo_TextButton_like menu_button from))
      with (stacked (top + 20 + 1) from).
    specialize (IH (from + 1)
                  (demo_fit_background background (mkRect 0 0 100 28 grey)
                     (stacked (top + 20 + 1) from))
                  (top + 20 + 1)%Z from).
    destruct (append_all _ _ _ _ _ _) as [cs background'].
    cbn [fst] in *. rewrite IH. cbn [stack].
    replace (top + 20 + 1)%Z with (top + 21)%Z by lia. reflexivity.
Qed.

Lemma append_all_stacks_first (n : nat) (background : Rect) :
  rect_left background = 0%Z ->
  rect_top background = 28%Z ->
  fst (append_all demo_place_choice demo_fit_background
         (mkRect 0 0 100 28 grey)
         (map (demo_TextButton_like menu_button) (labels 1 (S n)))
         background None)
  = stack 31 1 (S n).
Proof.
  intros L T. cbn [labels map append_all].
  replace (demo_place_choice background (mkRect 0 0 100 28 grey) None
             (demo_TextButton_like menu_button 1))
    with (stacked 31 1)
    by (unfold demo_place_choice, stacked; rewrite L, T; reflexivity).
  pose proof (append_all_stacks n (1 + 1)
                (demo_fit_background background (mkRect 0 0 100 28 grey)
                   (stacked 31 1)) 31 1) as IH.
  destruct (append_all _ _ _ _ _ _) as [cs background'].
  cbn [fst] in *. rewrite IH. reflexivity.
Qed.

(** Opening a hidden list whose last choice lies at [top], then holding the
    left button down over that choice, selects it: the position stored is
    the length of the list, as an [unsigned short]. *)
Lemma pick_last (d : demo_DropdownList) (l : list demo_TextButton)
    (top : Z) (label : N) (k : Z) :
  base d = menu_button ->
  m_dropStatus d = 0 ->
  m_choices d = l ++ [stacked top label] ->
  top = (28 + 3 + (k - 1) * 21)%Z ->
  let calls := [open_list; press_choice k] in
  demo_selection calls d None = Some (1 + N.of_nat (length l))
  /\ getCurrentChoice (demo_run calls d) = ushort (1 + N.of_nat (length l)).
Proof.
  intros Hbase Hstatus Hchoices Htop. cbv zeta.
  unfold demo_selection, demo_run, open_list, press_choice.
  cbn [selection run fold_left step selects].
  assert (Hidden : isDropped 1 d = false)
    by (unfold isDropped; now rewrite Hstatus).
  rewrite Hidden.
  rewrite update_hidden_list
    by (rewrite ?Hbase, ?Hstatus; reflexivity).
  rewrite Hstatus, Hbase. cbn [N.eqb].
  set (opened := set_dropStatus 1 (set_base _ d)).
  assert (Dropped : isDropped 1 opened = true) by reflexivity.
  assert (Choices : m_choices opened = l ++ [stacked top label])
    by exact Hchoices.
  assert (Pressed :
            pressed_choice 2 demo_as_Button demo_TextButton_update
              left_button_down
              (mkVector2i 5 (28 + 3 + (k - 1) * 21 + 10)) moved 1
              (m_choices opened)
            = Some (1 + N.of_nat (length l))).
  { rewrite Choices. apply pressed_choice_last.
    rewrite Htop. unfold stacked, isPressed, demo_as_Button,
      demo_TextButton_update, demo_Button_update, Button_update,
      Rect_contains.
    cbn [fst snd m_state m_shape N.eqb negb vx vy rect_left rect_top
         rect_width rect_height Pos.eqb].
    replace (0 <=? 5)%Z with true by reflexivity.
    replace (5 <? 0 + 100)%Z with true by reflexivity.
    replace (28 + 3 + (k - 1) * 21 <=? 28 + 3 + (k - 1) * 21 + 10)%Z
      with true by (symmetry; apply Z.leb_le; lia).
    replace (28 + 3 + (k - 1) * 21 + 10 <? 28 + 3 + (k - 1) * 21 + 20)%Z
      with true by (symmetry; apply Z.ltb_lt; lia).
    reflexivity. }
  rewrite Dropped, Pressed. split; [reflexivity |].
  unfold getCurrentChoice.
  rewrite update_currentChoice.
  cbn [selects]. rewrite Dropped, Pressed. reflexivity.
Qed.

(** A fresh list after [n + 1] calls of [addChoice(label)]. *)
Lemma add_labels_stacks (n : nat) :
  let d := demo_run
             (map (call_addChoice_label demo_TextButton N) (labels 1 (S n)))
             (demo_new menu_button) in
  base d = menu_button
  /\ m_dropStatus d = 0
  /\ m_choices d = stack 31 1 (S n).
Proof.
  cbv zeta. unfold demo_run.
  destruct (run_addChoice_label_fields Rect Rect_contains Rect_setFillColor
              2 3 demo_TextButton N demo_as_Button demo_TextButton_update
              demo_getLabel demo_setLabel demo_TextButton_like
              demo_place_choice demo_fit_background 0 1
              (labels 1 (S n)) (demo_new menu_button))
    as (Hbase & Hstatus & _ & Hchoices).
  split; [exact Hbase | split; [exact Hstatus |]].
  rewrite Hchoices.
  pose proof (append_all_stacks_first n
                (Rect_setFillColor (mkColor 210 210 210)
                   (demo_background_below (mkRect 0 0 100 28 grey)))
                eq_refl eq_refl) as Stacks.
  exact Stacks.
Qed.

Lemma sixty_five_thousand : N.to_nat 65536 = S (N.to_nat 65535).
Proof. rewrite <- N2Nat.inj_succ. reflexivity. Qed.

(** The list after 65536 calls of [addChoice(label)]. *)
Lemma add_65536_labels :
  let d := demo_run (add_labels 65536) (demo_new menu_button) in
  base d = menu_button
  /\ m_dropStatus d = 0
  /\ exists l : list demo_TextButton,
       m_choices d = l ++ [stacked 1376266 65536]
       /\ N.of_nat (length l) = 65535.
Proof.
  cbv zeta. unfold add_labels. rewrite sixty_five_thousand.
  destruct (add_labels_stacks (N.to_nat 65535)) as (Hbase & Hstatus & Hchoices).
  split; [exact Hbase | split; [exact Hstatus |]].
  exists (stack 31 1 (N.to_nat 65535)). split.
  - rewrite Hchoices, stack_snoc, N_nat_Z, N2Nat.id. reflexivity.
  - rewrite stack_length. apply N2Nat.id.
Qed.

Lemma demo_run_app (calls1 calls2 : list demo_call) (d : demo_DropdownList) :
  demo_run (calls1 ++ calls2) d = demo_run calls2 (demo_run calls1 d).
Proof. apply run_app. Qed.

Lemma demo_selection_app (calls1 calls2 : list demo_call)
    (d : demo_DropdownList) (sel : option N) :
  demo_selection (calls1 ++ calls2) d sel
  = demo_selection calls2 (demo_run calls1 d) (demo_selection calls1 d sel).
Proof. apply selection_app. Qed.

Lemma demo_selection_add_labels (n : N) (d : demo_DropdownList)
    (sel : option N) :
  demo_selection (add_labels n) d sel = sel.
Proof. apply selection_addChoice_label. Qed.

Lemma pick_last_of_65536_calls :
  pick_last_of_65536 = add_labels 65536 ++ [open_list; press_choice 65536].
Proof. reflexivity. Qed.

(** C10 as stated fails once the list holds 65536 choices: after the last
    of them is pressed, which is a selection of the choice at position
    65536, [getCurrentChoice()] returns 0. *)
Lemma currentChoice_wraps_at_65536 :
  let d := demo_run pick_last_of_65536 (demo_new menu_button) in
  demo_selection pick_last_of_65536 (demo_new menu_button) None = Some 65536
  /\ getCurrentChoice d = 0
  /\ getCurrentChoice d <> 65536.
Proof.
  cbv zeta.
  destruct add_65536_labels as (Hbase & Hstatus & l & Hchoices & Hlength).
  destruct (pick_last _ _ _ _ 65536 Hbase Hstatus Hchoices eq_refl)
    as (Selected & Stored).
  rewrite Hlength in Selected, Stored.
  rewrite pick_last_of_65536_calls, demo_run_app, demo_selection_app,
    demo_selection_add_labels.
  rewrite Selected, Stored.
  split; [reflexivity | split; [reflexivity | discriminate]].
Qed.

End gui.
